(** * fdmm-tools: merging a regenerated ANTLR visitor with its edited backup

    Shallow embedding of the merge engine of [regenerateVisitor.js].  The
    repository carries two generations of the tool:

    - [src/regenerateVisitor.js], embedded in [Module V1]: a visitor is
      [{ lines, functions }] and the differ compares stub bodies;
    - the later script with import handling, embedded in [Module V2]: a
      visitor is [{ lines, functions, imports }] and the differ walks the
      raw lines.

    The functions that are textually the same in both scripts
    ([getFunctionBody], [populateVisitorFunctions], [mergeFunctions] and
    the splice loop of [mergeLines]) live in [Module Shared].  [Module
    Scan] names the brace depth that the extractor computes, [Module
    Worded] holds the extractor and the serializer as the specification
    words them, and [Module Forward] the serializer as one forward pass;
    the theorems follow the definitions.

    Characters are [ascii]: a line is modelled as the sequence of its
    code units, every one of which is assumed to be a single unit in
    JavaScript as well (text below U+0100). *)

From Stdlib Require Import String Ascii ZArith List Bool Lia.
From stdpp Require Import base list gmap strings.

(** ** JavaScript values and built-ins used by the scripts *)

Module Js.

(** What a callback chain can end with instead of a value: an [Error]
    object handed to a callback, or a [TypeError] thrown by the engine
    (reading a property of [undefined]). *)
Inductive failure : Type :=
| TypeError
| Error (message : string).

Inductive outcome (A : Type) : Type :=
| Return (a : A)
| Raise (e : failure).
Arguments Return {A} a.
Arguments Raise {A} e.

#[global] Instance outcome_ret : MRet outcome := fun A a => Return a.
#[global] Instance outcome_bind : MBind outcome := fun A B k m =>
  match m with
  | Return a => k a
  | Raise e => Raise e
  end.

(** [s.includes(searchString)] *)
Definition includes (s searchString : string) : bool :=
  match String.index 0 searchString s with
  | Some _ => true
  | None => false
  end.

(** [s.indexOf(searchString)]: the first position, or -1. *)
Definition indexOf (s searchString : string) : Z :=
  match String.index 0 searchString s with
  | Some n => Z.of_nat n
  | None => (-1)%Z
  end.

(** Argument clamping of [String.prototype.substring]. *)
Definition clamp (len : nat) (i : Z) : nat :=
  Z.to_nat (Z.min (Z.max i 0) (Z.of_nat len)).

(** [s.substring(indexStart, indexEnd)]: both arguments are clamped to
    [0 .. length], and swapped when the first exceeds the second. *)
Definition substring (s : string) (indexStart indexEnd : Z) : string :=
  let a := clamp (String.length s) indexStart in
  let b := clamp (String.length s) indexEnd in
  String.substring (Nat.min a b) (Nat.max a b - Nat.min a b) s.

Definition newline : ascii := ascii_of_nat 10.

(** [s.split('\n')]: never empty; the empty string gives one empty
    line. *)
Fixpoint split (s : string) : list string :=
  match s with
  | EmptyString => [EmptyString]
  | String c s' =>
      if Ascii.eqb c newline then EmptyString :: split s'
      else match split s' with
           | [] => [String c EmptyString]
           | l :: ls => String c l :: ls
           end
  end.

(** An array element as [join] prints it: [undefined] is printed as the
    empty string. *)
Definition element_text (e : option string) : string :=
  match e with
  | Some s => s
  | None => EmptyString
  end.

(** [elements.join('\n')] *)
Fixpoint join (elements : list (option string)) : string :=
  match elements with
  | [] => EmptyString
  | e :: rest =>
      match rest with
      | [] => element_text e
      | _ :: _ => element_text e +:+ String newline (join rest)
      end
  end.

(** Relative index of [Array.prototype.slice]: negative counts from the
    end. *)
Definition relative (len : nat) (i : Z) : nat :=
  if (i <? 0)%Z then Z.to_nat (Z.max (Z.of_nat len + i) 0)
  else Z.to_nat (Z.min i (Z.of_nat len)).

(** [l.slice(start, end)] *)
Definition slice {A} (l : list A) (start end_ : Z) : list A :=
  let k := relative (length l) start in
  let final := relative (length l) end_ in
  take (final - k) (drop k l).

(** [l.splice(start, deleteCount, ...items)] for non-negative
    arguments, as the array left behind (the removed elements are
    dropped by every caller). *)
Definition splice {A} (l : list A) (start deleteCount : nat)
    (items : list A) : list A :=
  take start l ++ items ++ drop (start + deleteCount) l.

(** What [[a, b].concat(x)] appends: the elements of [x] when it is an
    array, and the single element [undefined] when [x] is
    [undefined]. *)
Definition concat_arg (x : option (list string)) : list (option string) :=
  match x with
  | Some body => Some <$> body
  | None => [None]
  end.

(** [Map] with string keys: entries in insertion order; [set] on a key
    that is present replaces the value where it stands. *)
Module Map.

Definition t (V : Type) : Type := list (string * V).

Definition empty {V} : t V := [].

Fixpoint get {V} (key : string) (m : t V) : option V :=
  match m with
  | [] => None
  | (k, v) :: m' => if String.eqb k key then Some v else get key m'
  end.

Definition has {V} (key : string) (m : t V) : bool :=
  match get key m with
  | Some _ => true
  | None => false
  end.

Fixpoint set {V} (key : string) (value : V) (m : t V) : t V :=
  match m with
  | [] => [(key, value)]
  | (k, v) :: m' =>
      if String.eqb k key then (k, value) :: m'
      else (k, v) :: set key value m'
  end.

Definition size {V} (m : t V) : nat := length m.

Definition entries {V} (m : t V) : list (string * V) := m.

Definition keys {V} (m : t V) : list string := fst <$> m.

(** The invariant of every [Map] object: no key occurs twice. *)
Definition wf {V} (m : t V) : Prop := NoDup (keys m).

End Map.

(** [Set] of strings: members in insertion order, no member twice. *)
Module StrSet.

Definition t : Type := list string.

Definition empty : t := [].

Fixpoint has (x : string) (s : t) : bool :=
  match s with
  | [] => false
  | y :: s' => if String.eqb y x then true else has x s'
  end.

Definition add (x : string) (s : t) : t :=
  if has x s then s else s ++ [x].

(** [new Set(iterable)] *)
Definition from (iterable : list string) : t :=
  fold_left (fun s x => add x s) iterable empty.

(** [Array.from(s.values())] *)
Definition values (s : t) : list string := s.

End StrSet.

End Js.

Import Js(outcome, Return, Raise, failure, TypeError, Error,
          outcome_ret, outcome_bind).

(** ** The file system and console the scripts act on *)

Module Node.

Inductive event : Type :=
| ConsoleLog (message : string)
| FileWritten (file data : string).

(** [files] is the content of every readable file; [writable] tells
    whether [fs.writeFile] succeeds on a path; [journal] records, oldest
    first, what the process has printed and written. *)
Record World : Type := {
  files : gmap string string;
  writable : string -> bool;
  journal : list event
}.

(** A callback chain over the world: it ends in a value or a failure
    and leaves a world behind either way. *)
Definition IO (A : Type) : Type := World -> outcome A * World.

#[global] Instance io_ret : MRet IO := fun A a w => (Return a, w).
#[global] Instance io_bind : MBind IO := fun A B k m w =>
  match m w with
  | (Return a, w') => k a w'
  | (Raise e, w') => (Raise e, w')
  end.

Definition lift {A} (o : outcome A) : IO A := fun w => (o, w).

Definition consoleLog (message : string) : IO unit := fun w =>
  (Return tt,
   {| files := files w; writable := writable w;
      journal := journal w ++ [ConsoleLog message] |}).

(** The error of [fs.readFile] on a file that cannot be read, as
    [`${err}`] prints it.  In this world a file that cannot be read is a
    file that is not there. *)
Definition readError (file : string) : string :=
  "Error: ENOENT: no such file or directory, open '" +:+ file +:+ "'".

(** The error of [fs.writeFile] on a path that cannot be written, as
    [`${err}`] prints it.  In this world a path that cannot be written is
    one the process lacks the permission for. *)
Definition writeError (file : string) : string :=
  "Error: EACCES: permission denied, open '" +:+ file +:+ "'".

(** [fs.readFile(file, cb)]: [cb(err)] when the file cannot be read. *)
Definition readFile (file : string) : IO (option string) := fun w =>
  (Return (files w !! file), w).

(** [fs.writeFile(file, data, cb)]: returns whether [err] is set. *)
Definition writeFile (file data : string) : IO bool := fun w =>
  if writable w file then
    (Return false,
     {| files := <[file := data]> (files w); writable := writable w;
        journal := journal w ++ [FileWritten file data] |})
  else (Return true, w).

End Node.

Import Node(IO, io_ret, io_bind).


(** ** Functions common to both scripts *)

Module Shared.

(** The lexical test of a stub declaration,
    [line.includes('function(ctx)')]. *)
Definition declaresStub (line : string) : bool :=
  Js.includes line "function(ctx)".

(** [line.substring(0, line.indexOf('=') - 1)] *)
Definition functionNameOf (line : string) : string :=
  Js.substring line 0 (Js.indexOf line "=" - 1).

(** The [do ... while (numBraces > 0)] loop of [getFunctionBody].
    [pending] is [visitor.lines] from [currentIndex] on, so that its head
    is [visitor.lines[currentIndex]] and [currentIndex++] is its tail;
    when it is empty [visitor.lines[currentIndex]] is [undefined], which
    is pushed and then has [includes] called on it: a [TypeError]. *)
Fixpoint scanFunctionBody (pending : list string) (numBraces : Z)
    (functionBody : list string) : outcome (list string) :=
  match pending with
  | [] => Raise TypeError
  | line :: pending' =>
      let functionBody := functionBody ++ [line] in
      let numBraces :=
        if Js.includes line "{" then (numBraces + 1)%Z else numBraces in
      let numBraces :=
        if Js.includes line "}" then (numBraces - 1)%Z else numBraces in
      if (0 <? numBraces)%Z
      then scanFunctionBody pending' numBraces functionBody
      else Return functionBody
  end.

Definition getFunctionBody (lines : list string) (currentIndex : nat)
    : outcome (list string) :=
  functionBody ← scanFunctionBody (drop currentIndex lines) 0 [];
  Return (Js.slice functionBody 1 (-1)).

(** [async.eachOfSeries(coll, iteratee, callback)] with an iteratee that
    calls back synchronously: the elements in order with their index, the
    first failure ending the series. *)
Fixpoint eachOfSeries {A St : Type} (coll : list A) (index : nat)
    (iteratee : A -> nat -> St -> outcome St) (s : St) : outcome St :=
  match coll with
  | [] => Return s
  | x :: coll' =>
      s' ← iteratee x index s;
      eachOfSeries coll' (S index) iteratee s'
  end.

(** The iteratee of [populateVisitorFunctions] on [(line,
    currentIndex)], on the two fields of [visitor] it touches. *)
Definition populateLine (lines : list string) (line : string)
    (currentIndex : nat) (functions : Js.Map.t (list string))
    : outcome (Js.Map.t (list string)) :=
  if Js.includes line "function(ctx)" then
    let functionName := Js.substring line 0 (Js.indexOf line "=" - 1) in
    functionBody ← getFunctionBody lines currentIndex;
    Return (Js.Map.set functionName functionBody functions)
  else Return functions.

Definition populateVisitorFunctions (lines : list string)
    (functions : Js.Map.t (list string)) : outcome (Js.Map.t (list string)) :=
  eachOfSeries lines 0 (populateLine lines) functions.

(** The iteratee of [mergeFunctions] on one [[functionName,
    functionBody]] entry; [oldVisitor.functions.get] is read only after
    [has] has answered [true]. *)
Definition mergeEntry (oldFunctions merged : Js.Map.t (list string))
    (entry : string * list string) : Js.Map.t (list string) :=
  let '(functionName, functionBody) := entry in
  let mergedFunctionBody :=
    if Js.Map.has functionName oldFunctions
    then default functionBody (Js.Map.get functionName oldFunctions)
    else functionBody in
  Js.Map.set functionName mergedFunctionBody merged.

(** [mergeFunctions], on the [functions] fields.  [async.each] over a
    [Map] visits its entries in insertion order. *)
Definition mergeFunctions (oldFunctions functions mergedFunctions
    : Js.Map.t (list string)) : Js.Map.t (list string) :=
  fold_left (mergeEntry oldFunctions) (Js.Map.entries functions)
    mergedFunctions.

(** [lines[i]]: [undefined] out of range and where the array holds
    [undefined]. *)
Definition lineAt (lines : list (option string)) (i : nat) : option string :=
  mjoin (lines !! i).

(** One turn of the [for] loop of [mergeLines], at index [i]. *)
Definition spliceStub (functions : Js.Map.t (list string)) (i : nat)
    (lines : list (option string)) : outcome (list (option string)) :=
  match lineAt lines i with
  | None => Raise TypeError
  | Some currentLine =>
      if Js.includes currentLine "function(ctx)" then
        let functionName :=
          Js.substring currentLine 0 (Js.indexOf currentLine "=" - 1) in
        let mergedFunctionBody := Js.Map.get functionName functions in
        let lines := Js.splice lines (i + 1) 1 [] in
        Return (Js.splice lines (i + 1) 0 (Js.concat_arg mergedFunctionBody))
      else Return lines
  end.

(** [for (let i = n - 1; i >= 0; i--)]: [n] is one more than the next
    index to visit. *)
Fixpoint spliceStubs (functions : Js.Map.t (list string)) (n : nat)
    (lines : list (option string)) : outcome (list (option string)) :=
  match n with
  | O => Return lines
  | S i =>
      lines ← spliceStub functions i lines;
      spliceStubs functions i lines
  end.

End Shared.

(** ** [src/regenerateVisitor.js] *)

Module V1.

Record Visitor : Type := {
  lines : list string;
  functions : Js.Map.t (list string)
}.

(** [mergedVisitor]: the same object shape, but [mergeLines] can leave
    [undefined] among its lines. *)
Record MergedVisitor : Type := {
  mergedLines : list (option string);
  mergedFunctions : Js.Map.t (list string)
}.

(** [{ lines: [], functions: new Map() }] *)
Definition emptyVisitor : Visitor :=
  {| lines := []; functions := Js.Map.empty |}.

Definition emptyMergedVisitor : MergedVisitor :=
  {| mergedLines := []; mergedFunctions := Js.Map.empty |}.

Definition parseVisitorLines (data : string) (visitor : Visitor) : Visitor :=
  {| lines := lines visitor ++ Js.split data;
     functions := functions visitor |}.

Definition populateVisitorFunctions (visitor : Visitor) : outcome Visitor :=
  functions' ← Shared.populateVisitorFunctions (lines visitor) (functions visitor);
  Return {| lines := lines visitor; functions := functions' |}.

(** The part of [parseVisitor] that runs once the file has been read. *)
Definition parseVisitorData (data : string) (visitor : Visitor)
    : outcome Visitor :=
  populateVisitorFunctions (parseVisitorLines data visitor).

Definition parseVisitor (file : string) (visitor : Visitor) : IO Visitor :=
  data ← Node.readFile file;
  match data with
  | None =>
      Node.lift
        (Raise (Error ("Could not parse visitor lines: "
                       +:+ Node.readError file)))
  | Some data => Node.lift (parseVisitorData data visitor)
  end.

(** The inner [for] of [equalVisitors]: every [index, line] of the first
    body against the second body at [index], which is [undefined] past
    its end. *)
Fixpoint equalBodyFrom (index : nat) (functionBody other : list string)
    : bool :=
  match functionBody with
  | [] => true
  | line :: rest =>
      match other !! index with
      | Some line' =>
          if String.eqb line line' then equalBodyFrom (S index) rest other
          else false
      | None => false
      end
  end.

(** [equalVisitors]: the value handed to its callback. *)
Definition equalVisitors (v0 v1 : Visitor) : bool :=
  if negb (Js.Map.size (functions v0) =? Js.Map.size (functions v1))
  then false
  else
    forallb
      (fun '(functionName, functionBody) =>
         match Js.Map.get functionName (functions v1) with
         | None => false
         | Some other => equalBodyFrom 0 functionBody other
         end)
      (Js.Map.entries (functions v0)).

Definition mergeFunctions (oldVisitor visitor : Visitor)
    (mergedVisitor : MergedVisitor) : MergedVisitor :=
  {| mergedLines := mergedLines mergedVisitor;
     mergedFunctions :=
       Shared.mergeFunctions (functions oldVisitor) (functions visitor)
         (mergedFunctions mergedVisitor) |}.

Definition mergeLines (visitor : Visitor) (mergedVisitor : MergedVisitor)
    : outcome MergedVisitor :=
  let pushed := mergedLines mergedVisitor ++ (Some <$> lines visitor) in
  spliced ← Shared.spliceStubs (mergedFunctions mergedVisitor)
              (length pushed) pushed;
  Return {| mergedLines := spliced;
            mergedFunctions := mergedFunctions mergedVisitor |}.

Definition generateVisitorFile (visitorFile : string)
    (mergedVisitor : MergedVisitor) : IO unit :=
  err ← Node.writeFile visitorFile (Js.join (mergedLines mergedVisitor));
  if err : bool
  then Node.lift
         (Raise (Error ("Could not generate new visitor file: "
                        +:+ Node.writeError visitorFile)))
  else Node.consoleLog ("Generated new visitor file: " +:+ visitorFile).

(** [mergeAndGenerateIfDifferent]; the value is [mergedVisitor] as the
    call leaves it. *)
Definition mergeAndGenerateIfDifferent (visitorFile : string)
    (oldVisitor visitor : Visitor) (mergedVisitor : MergedVisitor)
    : IO MergedVisitor :=
  if equalVisitors oldVisitor visitor then
    _ ← Node.consoleLog
          "No difference between old visitor and new visitor. Skipping merge...";
    mret mergedVisitor
  else
    _ ← Node.consoleLog "Merging old visitor and new visitor";
    let mergedVisitor := mergeFunctions oldVisitor visitor mergedVisitor in
    mergedVisitor ← Node.lift (mergeLines visitor mergedVisitor);
    _ ← generateVisitorFile visitorFile mergedVisitor;
    mret mergedVisitor.

Definition mergeOldVisitorContentsIfDifferent (visitorFile : string)
    : IO MergedVisitor :=
  let oldVisitorFile := visitorFile +:+ ".old" in
  oldVisitor ← parseVisitor oldVisitorFile emptyVisitor;
  visitor ← parseVisitor visitorFile emptyVisitor;
  mergeAndGenerateIfDifferent visitorFile oldVisitor visitor
    emptyMergedVisitor.

End V1.

(** ** The later script, with import handling *)

Module V2.

Record Visitor : Type := {
  lines : list string;
  functions : Js.Map.t (list string);
  imports : Js.StrSet.t
}.

Record MergedVisitor : Type := {
  mergedLines : list (option string);
  mergedFunctions : Js.Map.t (list string);
  mergedImports : Js.StrSet.t
}.

(** [{ lines: [], functions: new Map(), imports: new Set() }] *)
Definition emptyVisitor : Visitor :=
  {| lines := []; functions := Js.Map.empty; imports := Js.StrSet.empty |}.

Definition emptyMergedVisitor : MergedVisitor :=
  {| mergedLines := []; mergedFunctions := Js.Map.empty;
     mergedImports := Js.StrSet.empty |}.

Definition parseVisitorLines (data : string) (visitor : Visitor) : Visitor :=
  {| lines := lines visitor ++ Js.split data;
     functions := functions visitor;
     imports := imports visitor |}.

Definition populateVisitorFunctions (visitor : Visitor) : outcome Visitor :=
  functions' ← Shared.populateVisitorFunctions (lines visitor) (functions visitor);
  Return {| lines := lines visitor; functions := functions';
            imports := imports visitor |}.

(** [async.filter] keeps the lines with [require(] in their order;
    [async.eachSeries] adds each of them to [visitor.imports]. *)
Definition populateVisitorImports (visitor : Visitor) : Visitor :=
  let importLines :=
    List.filter (fun line => Js.includes line "require(") (lines visitor) in
  {| lines := lines visitor;
     functions := functions visitor;
     imports :=
       fold_left (fun s importLine => Js.StrSet.add importLine s)
         importLines (imports visitor) |}.

Definition parseVisitorData (data : string) (visitor : Visitor)
    : outcome Visitor :=
  visitor ← populateVisitorFunctions (parseVisitorLines data visitor);
  Return (populateVisitorImports visitor).

Definition parseVisitor (file : string) (visitor : Visitor) : IO Visitor :=
  data ← Node.readFile file;
  match data with
  | None =>
      Node.lift
        (Raise (Error ("Could not parse visitor lines: "
                       +:+ Node.readError file)))
  | Some data => Node.lift (parseVisitorData data visitor)
  end.

(** [[index, line] = element] for a string [element]: its first and
    second character, [undefined] where it is too short. *)
Definition destructurePair (element : string) : option ascii * option ascii :=
  match element with
  | EmptyString => (None, None)
  | String a EmptyString => (Some a, None)
  | String a (String b _) => (Some a, Some b)
  end.

(** The array index a one-character property key names: only the keys
    ["0"] to ["9"] do. *)
Definition arrayIndexOfKey (key : ascii) : option nat :=
  let n := nat_of_ascii key in
  if (48 <=? n) && (n <=? 57) then Some (n - 48) else None.

(** [array[key]] for a key that is [undefined] or one character: an
    array has no property named ["undefined"] and none with a
    one-character name other than an index. *)
Definition propertyOf (array : list string) (key : option ascii)
    : option string :=
  match key with
  | None => None
  | Some c =>
      match arrayIndexOfKey c with
      | Some d => array !! d
      | None => None
      end
  end.

(** [a != b] for [a] a one-character string or [undefined] and [b] a
    string or [undefined]. *)
Definition looseNotEqual (a : option ascii) (b : option string) : bool :=
  match a, b with
  | None, None => false
  | Some c, Some s => negb (String.eqb (String c EmptyString) s)
  | _, _ => true
  end.

(** [equalVisitors] of this script.  [v0.lines.size] and [v1.lines.size]
    are both [undefined] (arrays have [length], not [size]), so the first
    test never returns; the loop destructures each line of [v0] itself
    into [index] and [line]. *)
Definition equalVisitors (v0 v1 : Visitor) : bool :=
  forallb
    (fun element =>
       let '(index, line) := destructurePair element in
       negb (looseNotEqual line (propertyOf (lines v1) index)))
    (lines v0).

Definition mergeFunctions (oldVisitor visitor : Visitor)
    (mergedVisitor : MergedVisitor) : MergedVisitor :=
  {| mergedLines := mergedLines mergedVisitor;
     mergedFunctions :=
       Shared.mergeFunctions (functions oldVisitor) (functions visitor)
         (mergedFunctions mergedVisitor);
     mergedImports := mergedImports mergedVisitor |}.

(** [mergeImports], on the [imports] fields: a new [Set] from the old
    imports, then every import of the new visitor added to it. *)
Definition mergeImportSets (oldImports newImports : Js.StrSet.t)
    : Js.StrSet.t :=
  fold_left (fun s importLine => Js.StrSet.add importLine s)
    (Js.StrSet.values newImports) (Js.StrSet.from oldImports).

Definition mergeImports (oldVisitor visitor : Visitor)
    (mergedVisitor : MergedVisitor) : MergedVisitor :=
  {| mergedLines := mergedLines mergedVisitor;
     mergedFunctions := mergedFunctions mergedVisitor;
     mergedImports := mergeImportSets (imports oldVisitor) (imports visitor) |}.

Definition mergeLines (visitor : Visitor) (mergedVisitor : MergedVisitor)
    : outcome MergedVisitor :=
  let pushed := mergedLines mergedVisitor ++ (Some <$> lines visitor) in
  let withImports :=
    Js.splice pushed 2 1
      (Some <$> Js.StrSet.values (mergedImports mergedVisitor)) in
  spliced ← Shared.spliceStubs (mergedFunctions mergedVisitor)
              (length withImports) withImports;
  Return {| mergedLines := spliced;
            mergedFunctions := mergedFunctions mergedVisitor;
            mergedImports := mergedImports mergedVisitor |}.

Definition generateVisitorFile (visitorFile : string)
    (mergedVisitor : MergedVisitor) : IO unit :=
  err ← Node.writeFile visitorFile (Js.join (mergedLines mergedVisitor));
  if err : bool
  then Node.lift
         (Raise (Error ("Could not generate new visitor file: "
                        +:+ Node.writeError visitorFile)))
  else Node.consoleLog ("Generated new visitor file: " +:+ visitorFile).

Definition mergeAndGenerateIfDifferent (visitorFile : string)
    (oldVisitor visitor : Visitor) (mergedVisitor : MergedVisitor)
    : IO MergedVisitor :=
  if equalVisitors oldVisitor visitor then
    _ ← Node.consoleLog
          "No difference between old visitor and new visitor. Skipping merge...";
    mret mergedVisitor
  else
    _ ← Node.consoleLog "Merging old visitor and new visitor";
    let mergedVisitor := mergeFunctions oldVisitor visitor mergedVisitor in
    let mergedVisitor := mergeImports oldVisitor visitor mergedVisitor in
    mergedVisitor ← Node.lift (mergeLines visitor mergedVisitor);
    _ ← generateVisitorFile visitorFile mergedVisitor;
    mret mergedVisitor.

Definition mergeOldVisitorContentsIfDifferent (visitorFile : string)
    : IO MergedVisitor :=
  let oldVisitorFile := visitorFile +:+ ".old" in
  oldVisitor ← parseVisitor oldVisitorFile emptyVisitor;
  visitor ← parseVisitor visitorFile emptyVisitor;
  mergeAndGenerateIfDifferent visitorFile oldVisitor visitor
    emptyMergedVisitor.

End V2.

(** ** Brace depth, as the scan of [getFunctionBody] computes it, and the
    extraction the specification words *)

Module Scan.

(** What one line adds to [numBraces]: one up when it has a [{], one down
    when it has a [}], whatever the number of braces on the line. *)
Definition braceDelta (line : string) : Z :=
  ((if Js.includes line "{" then 1 else 0)
   - (if Js.includes line "}" then 1 else 0))%Z.

(** [numBraces] after a run of lines scanned from depth zero. *)
Definition depthOf (span : list string) : Z :=
  fold_right (fun line d => (braceDelta line + d)%Z) 0%Z span.

(** The scan over [pending] ends with its [k]-th line: the depth after
    [k] lines is not positive, and it is positive after every shorter
    non-empty run. *)
Definition closesAfter (pending : list string) (k : nat) : Prop :=
  0 < k <= length pending
  /\ (depthOf (take k pending) <= 0)%Z
  /\ forall j, 0 < j < k -> (0 < depthOf (take j pending))%Z.

(** A stub declared at [index] that the scan never closes. *)
Definition unclosedAt (lines : list string) (index : nat) : Prop :=
  (exists line, lines !! index = Some line
                /\ Shared.declaresStub line = true)
  /\ forall k, ~ closesAfter (drop index lines) k.

End Scan.

(** The extraction as the specification words it: the running depth
    counts every [{] and every [}] of a line, and the scan ends with the
    first line at whose end the depth is zero after having been
    positive. *)
Module Worded.

(** The depth and the has-been-positive flag after the characters of one
    line. *)
Fixpoint scanChars (s : string) (depth : Z) (positive : bool) : Z * bool :=
  match s with
  | EmptyString => (depth, positive)
  | String c s' =>
      if Ascii.eqb c "{"
      then scanChars s' (depth + 1)%Z (positive || (0 <? depth + 1)%Z)
      else if Ascii.eqb c "}" then scanChars s' (depth - 1)%Z positive
      else scanChars s' depth positive
  end.

(** The scanned span, from the declaring line to the terminating line;
    [None] when the lines end first. *)
Fixpoint scanSpan (pending : list string) (depth : Z) (positive : bool)
    : option (list string) :=
  match pending with
  | [] => None
  | line :: pending' =>
      let '(depth', positive') := scanChars line depth positive in
      if positive' && (depth' =? 0)%Z then Some [line]
      else (fun span => line :: span) <$> scanSpan pending' depth' positive'
  end.

(** The body: the span without its first and its last line. *)
Definition getFunctionBody (lines : list string) (currentIndex : nat)
    : option (list string) :=
  (fun span => removelast (tail span))
    <$> scanSpan (drop currentIndex lines) 0 false.

(** The number of lines of the span of a stub, from its declaring line
    to its closing line, as the extractor finds it (all the lines when
    the scan does not close). *)
Definition spanLength (pending : list string) : nat :=
  match Shared.scanFunctionBody pending 0 [] with
  | Return scanned => length scanned
  | Raise _ => length pending
  end.

(** The serializer as the specification words it: after a stub
    declaration, the lines from the next one through the closing line
    are left out and the merged body stands in their place.  [skip]
    counts the lines still to leave out. *)
Fixpoint serialized (functions : Js.Map.t (list string)) (skip : nat)
    (lines : list string) : list (option string) :=
  match lines with
  | [] => []
  | line :: rest =>
      match skip with
      | S skip' => serialized functions skip' rest
      | O =>
          Some line ::
          (if Shared.declaresStub line
           then Js.concat_arg
                  (Js.Map.get (Shared.functionNameOf line) functions)
                ++ serialized functions (spanLength lines - 1) rest
           else serialized functions 0 rest)
      end
  end.

End Worded.

(** The serializer as one forward pass over the new file's lines: every
    line is copied; a stub declaration is followed by the merged body
    filed under its name ([undefined] when there is none), and the one
    line that followed the declaration is left out. *)
Module Forward.

Fixpoint rewritten (functions : Js.Map.t (list string))
    (lines : list string) : list (option string) :=
  match lines with
  | [] => []
  | line :: rest =>
      Some line ::
      (if Shared.declaresStub line
       then Js.concat_arg (Js.Map.get (Shared.functionNameOf line) functions)
            ++ tail (rewritten functions rest)
       else rewritten functions rest)
  end.

End Forward.

(** ** The backup step and the entry of the merge step, the same in both
    scripts *)

Module Orchestrator.

(** The message of the error [fs.access] and [fs.copyFile] report for a
    path that does not exist. *)
Definition noEntry (syscall file : string) : string :=
  "ENOENT: no such file or directory, " +:+ syscall +:+ " '" +:+ file +:+ "'".

(** [fs.access(file, cb)]: the error message when [err] is set.  A file
    exists when the world has a content for it. *)
Definition access (file : string) : IO (option string) := fun w =>
  match Node.files w !! file with
  | Some _ => (Return None, w)
  | None => (Return (Some (noEntry "access" file)), w)
  end.

(** [fs.copyFile(src, dest, cb)]: returns whether [err] is set; it is
    when [src] cannot be read or [dest] cannot be written. *)
Definition copyFile (src dest : string) : IO bool := fun w =>
  match Node.files w !! src with
  | Some data => Node.writeFile dest data w
  | None => (Return true, w)
  end.

Definition renameOldVisitor (visitorFile : string) : IO unit :=
  err ← copyFile visitorFile (visitorFile +:+ ".old");
  if err : bool
  then Node.lift
         (Raise (Error ("Could not rename " +:+ visitorFile +:+ " to "
                        +:+ visitorFile +:+ ".old")))
  else Node.consoleLog
         ("Renamed " +:+ visitorFile +:+ " to " +:+ visitorFile +:+ ".old").

Definition renameOldVisitorIfNecessary (visitorFile : string) : IO unit :=
  err ← access visitorFile;
  match err with
  | Some message => Node.consoleLog (message +:+ " Skipping rename...")
  | None => renameOldVisitor visitorFile
  end.

(** [mergeOldVisitorContentsIfOldVisitorExists], over the merge step of
    either script; the value is [mergedVisitor] when the merge step ran. *)
Definition mergeOldVisitorContentsIfOldVisitorExists {M : Type}
    (mergeOldVisitorContentsIfDifferent : string -> IO M)
    (visitorFile : string) : IO (option M) :=
  err ← access (visitorFile +:+ ".old");
  match err with
  | Some message =>
      _ ← Node.consoleLog (message +:+ " Skipping merge...");
      mret None
  | None =>
      mergedVisitor ← mergeOldVisitorContentsIfDifferent visitorFile;
      mret (Some mergedVisitor)
  end.

End Orchestrator.

(** ** The command line script around the merge step, the same in both
    scripts.  The [path] functions and [childProcess.exec] are Node's;
    they are taken as they come: [exec] may do anything to the world and
    reports the text of its error, if any. *)

Module Main.

Section Script.
Context {M : Type}.
Variable resolve : string -> string.
Variable resolveIn : string -> string -> string.
Variable extname : string -> string.
Variable dirname : string -> string.
Variable basename : string -> string -> string.
Variable exec : string -> IO (option string).
Variable mergeOldVisitorContentsIfDifferent : string -> IO M.

Definition GRAMMAR_EXTENSION : string := ".g4".

Definition verifyNumberOfArguments (argv : list string) : IO unit :=
  if length argv <? 3
  then Node.lift (Raise (Error "Not enough arguments"))
  else mret tt.

(** [path.resolve(argv[2])] throws a [TypeError] when [argv[2]] is
    [undefined]. *)
Definition verifyFileExtension (argv : list string) : IO unit :=
  match argv !! 2 with
  | None => Node.lift (Raise TypeError)
  | Some argument =>
      let grammarFile := resolve argument in
      let ext := extname grammarFile in
      if negb (String.eqb ext GRAMMAR_EXTENSION)
      then Node.lift
             (Raise (Error ("Expected extension " +:+ GRAMMAR_EXTENSION
                            +:+ " but got " +:+ ext)))
      else mret tt
  end.

Definition verify (argv : list string) : IO unit :=
  _ ← verifyNumberOfArguments argv;
  verifyFileExtension argv.

Definition regenerateNewVisitor (grammarFile : string) : IO unit :=
  err ← exec ("java -jar /usr/local/lib/antlr-4.7.2-complete.jar -Dlanguage=JavaScript "
              +:+ grammarFile +:+ " -visitor -no-listener");
  match err with
  | Some text =>
      Node.lift
        (Raise (Error ("Could not regenerate visitor with antlr: " +:+ text)))
  | None =>
      Node.consoleLog
        ("Regenerated visitor from " +:+ grammarFile +:+ " via antlr4")
  end.

(** The visitor file that [execute] derives from [argv[2]]. *)
Definition visitorFileOf (argument : string) : string :=
  let grammarFile := resolve argument in
  let grammarDirectory := dirname grammarFile in
  let grammarName := basename grammarFile GRAMMAR_EXTENSION in
  resolveIn grammarDirectory (grammarName +:+ "Visitor.js").

Definition execute (argv : list string) : IO (option M) :=
  match argv !! 2 with
  | None => Node.lift (Raise TypeError)
  | Some argument =>
      let grammarFile := resolve argument in
      let visitorFile := visitorFileOf argument in
      _ ← Orchestrator.renameOldVisitorIfNecessary visitorFile;
      _ ← regenerateNewVisitor grammarFile;
      Orchestrator.mergeOldVisitorContentsIfOldVisitorExists
        mergeOldVisitorContentsIfDifferent visitorFile
  end.

(** [main]: the chain of [verify] and [execute], ended by [handleError],
    which prints the name and the message of an [Error]; a thrown
    [TypeError] reaches no callback. *)
Definition main (argv : list string) : IO unit := fun w =>
  match (_ ← verify argv; execute argv) w with
  | (Return _, w') => (Return tt, w')
  | (Raise (Error message), w') =>
      Node.consoleLog ("Error: " +:+ message) w'
  | (Raise TypeError, w') => (Raise TypeError, w')
  end.

End Script.

End Main.

(** A stub as the generator and an editor leave it: the depth is
    positive after the declaring line and after every line of the body,
    and the closing line brings it to zero or below. *)
Module Stub.

Definition encloses (decl : string) (body : list string) (closing : string)
    : Prop :=
  (forall j, j <= length body ->
             (0 < Scan.braceDelta decl + Scan.depthOf (take j body))%Z)
  /\ (Scan.braceDelta decl + Scan.depthOf body + Scan.braceDelta closing
      <= 0)%Z.

(** A new file in the shape the generator gives it, seen against the
    merged stubs [functions]: lines that declare nothing, and stubs of a
    declaring line, one placeholder line and a closing line, each with a
    merged body under its name that its declaring and closing lines
    enclose and that declares no stub itself.  No line holds a line
    separator. *)
Inductive Templated (functions : Js.Map.t (list string))
    : list string -> Prop :=
| templated_nil : Templated functions []
| templated_plain line rest :
    Shared.declaresStub line = false ->
    Js.includes line (String Js.newline EmptyString) = false ->
    Templated functions rest ->
    Templated functions (line :: rest)
| templated_stub decl placeholder closing body rest :
    Shared.declaresStub decl = true ->
    Js.includes decl (String Js.newline EmptyString) = false ->
    Shared.declaresStub placeholder = false ->
    Shared.declaresStub closing = false ->
    Js.includes closing (String Js.newline EmptyString) = false ->
    Js.Map.get (Shared.functionNameOf decl) functions = Some body ->
    Forall (fun line =>
              Shared.declaresStub line = false
              /\ Js.includes line (String Js.newline EmptyString) = false)
      body ->
    encloses decl body closing ->
    Templated functions rest ->
    Templated functions (decl :: placeholder :: closing :: rest).

End Stub.

(** A line holds no line separator. *)
Definition oneLine (line : string) : Prop :=
  Js.includes line (String Js.newline EmptyString) = false.

(** What a callback chain may do to the files when it only ever writes
    [target]: every other path keeps its content, a failure leaves all
    files as they were, and what can be written does not change. *)
Definition writesOnly {A : Type} (target : string) (w : Node.World)
    (result : outcome A * Node.World) : Prop :=
  (forall path, path <> target ->
                Node.files result.2 !! path = Node.files w !! path)
  /\ (forall e, result.1 = Raise e -> Node.files result.2 = Node.files w)
  /\ Node.writable result.2 = Node.writable w.

(** ** Facts about [Map] and [Set] *)

Section MapFacts.
Context {V : Type}.
Implicit Types (m : Js.Map.t V) (k : string) (v : V).

Lemma map_has_get k m : Js.Map.has k m = true <-> is_Some (Js.Map.get k m).
Proof.
  unfold Js.Map.has. destruct (Js.Map.get k m); split; intros H;
    try done; try (by eexists); by destruct H.
Qed.

Lemma map_get_In k v m : Js.Map.get k m = Some v -> In (k, v) m.
Proof.
  induction m as [|[k' v'] m IH]; simpl; [done|].
  destruct (String.eqb_spec k' k) as [->|Hne].
  - intros [= ->]. by left.
  - intros H. right. by apply IH.
Qed.

Lemma map_get_None_keys k m :
  Js.Map.get k m = None <-> ~ In k (Js.Map.keys m).
Proof.
  induction m as [|[k' v'] m IH]; simpl; [tauto|].
  destruct (String.eqb_spec k' k) as [->|Hne]; split.
  - done.
  - intros H. destruct H. by left.
  - intros H [He|Hin]; [done|]. by apply IH.
  - intros H. apply IH. tauto.
Qed.

Lemma map_get_Some_keys k m :
  is_Some (Js.Map.get k m) <-> In k (Js.Map.keys m).
Proof.
  destruct (Js.Map.get k m) eqn:E.
  - split; [intros _|by eexists].
    apply map_get_In in E. by apply (in_map fst) in E.
  - split; [by intros [? ?]|]. intros Hin.
    by apply map_get_None_keys in E.
Qed.

Lemma map_In_get k v m : Js.Map.wf m -> In (k, v) m -> Js.Map.get k m = Some v.
Proof.
  unfold Js.Map.wf, Js.Map.keys.
  induction m as [|[k' v'] m IH]; simpl; [done|].
  intros Hnd [He|Hin].
  - injection He as -> ->. by rewrite String.eqb_refl.
  - apply NoDup_cons in Hnd as [Hk Hnd].
    destruct (String.eqb_spec k' k) as [->|Hne].
    + destruct Hk. apply list_elem_of_In. by apply (in_map fst) in Hin.
    + by apply IH.
Qed.

Lemma map_get_set_eq k v m : Js.Map.get k (Js.Map.set k v m) = Some v.
Proof.
  induction m as [|[k' v'] m IH]; simpl.
  - by rewrite String.eqb_refl.
  - destruct (String.eqb_spec k' k) as [->|Hne]; simpl.
    + by rewrite String.eqb_refl.
    + by destruct (String.eqb_spec k' k).
Qed.

Lemma map_get_set_ne k k' v m :
  k <> k' -> Js.Map.get k' (Js.Map.set k v m) = Js.Map.get k' m.
Proof.
  intros Hne. induction m as [|[k0 v0] m IH]; simpl.
  - by destruct (String.eqb_spec k k').
  - destruct (String.eqb_spec k0 k) as [->|Hne0]; simpl.
    + by destruct (String.eqb_spec k k').
    + by destruct (String.eqb k0 k').
Qed.

Lemma map_keys_set k v m :
  Js.Map.keys (Js.Map.set k v m) =
  if Js.Map.has k m then Js.Map.keys m else Js.Map.keys m ++ [k].
Proof.
  unfold Js.Map.has, Js.Map.keys.
  induction m as [|[k0 v0] m IH]; [done|].
  cbn [Js.Map.set Js.Map.get].
  destruct (String.eqb_spec k0 k) as [->|Hne0]; [done|].
  rewrite !fmap_cons, IH. by destruct (Js.Map.get k m).
Qed.

Lemma map_wf_set k v m : Js.Map.wf m -> Js.Map.wf (Js.Map.set k v m).
Proof.
  unfold Js.Map.wf. rewrite map_keys_set. intros Hnd.
  destruct (Js.Map.has k m) eqn:E; [done|].
  apply NoDup_app. split; [done|]. split; [|apply NoDup_singleton].
  intros x Hx ->%list_elem_of_singleton.
  assert (Js.Map.has k m = true); [|congruence].
  apply map_has_get, map_get_Some_keys. by apply list_elem_of_In.
Qed.

Lemma map_wf_empty : Js.Map.wf (@Js.Map.empty V).
Proof. apply NoDup_nil_2. Qed.

End MapFacts.

(** ** The merge resolver: [mergeFunctions] *)

Section MergeFunctions.
Variable oldFunctions : Js.Map.t (list string).
Local Abbreviation step := (Shared.mergeEntry oldFunctions).

Lemma merge_fold_untouched name entries merged :
  ~ In name (Js.Map.keys entries) ->
  Js.Map.get name (fold_left step entries merged) = Js.Map.get name merged.
Proof.
  revert merged. induction entries as [|[k b] entries IH]; intros merged Hn.
  - reflexivity.
  - cbn [fold_left]. rewrite IH.
    + apply map_get_set_ne. intros ->. apply Hn. by left.
    + intros Hin. apply Hn. by right.
Qed.

Lemma merge_fold_old name oldBody entries merged :
  Js.Map.get name oldFunctions = Some oldBody ->
  In name (Js.Map.keys entries) \/ Js.Map.get name merged = Some oldBody ->
  Js.Map.get name (fold_left step entries merged) = Some oldBody.
Proof.
  intros Hold. revert merged.
  induction entries as [|[k b] entries IH]; intros merged Hcase.
  - destruct Hcase as [[]|H]. exact H.
  - cbn [fold_left]. apply IH.
    destruct (string_dec k name) as [->|Hne].
    + right. unfold Shared.mergeEntry, Js.Map.has. rewrite Hold.
      apply map_get_set_eq.
    + destruct Hcase as [[He|Hin]|Hm].
      * done.
      * by left.
      * right. unfold Shared.mergeEntry. by rewrite map_get_set_ne.
Qed.

Lemma merge_fold_new name body entries merged :
  Js.Map.get name oldFunctions = None ->
  Js.Map.wf entries ->
  In (name, body) entries ->
  Js.Map.get name (fold_left step entries merged) = Some body.
Proof.
  intros Hold. revert merged.
  induction entries as [|[k b] entries IH]; intros merged Hwf Hin; [done|].
  apply NoDup_cons in Hwf as [Hk Hwf]. cbn [fold_left].
  destruct Hin as [He|Hin].
  - injection He as -> ->.
    rewrite merge_fold_untouched.
    + unfold Shared.mergeEntry, Js.Map.has. rewrite Hold.
      apply map_get_set_eq.
    + intros Hin. apply Hk. by apply list_elem_of_In.
  - by apply IH.
Qed.

End MergeFunctions.

(** C1 (preservation).  A stub name that the old and the new model both
    have keeps, in the merged model, exactly the old model's body,
    whatever body the new model generated for it and whatever the merged
    map held before. *)
Theorem mergeFunctions_preserves_old_body
    (oldFunctions functions mergedFunctions : Js.Map.t (list string))
    (name : string) (oldBody newBody : list string) :
  Js.Map.get name oldFunctions = Some oldBody ->
  Js.Map.get name functions = Some newBody ->
  Js.Map.get name
    (Shared.mergeFunctions oldFunctions functions mergedFunctions)
  = Some oldBody.
Proof.
  intros Hold Hnew. unfold Shared.mergeFunctions, Js.Map.entries.
  apply merge_fold_old; [exact Hold|]. left.
  apply map_get_Some_keys. by eexists.
Qed.

(** C2 (adoption of new structure).  A stub name that only the new model
    has gets the new model's body; a stub name that only the old model
    has is absent from the merged map (which the caller hands in without
    that name: it is a fresh [Map]). *)
Theorem mergeFunctions_adopts_new_structure
    (oldFunctions functions mergedFunctions : Js.Map.t (list string))
    (name : string) :
  Js.Map.wf functions ->
  (forall newBody,
     Js.Map.get name oldFunctions = None ->
     Js.Map.get name functions = Some newBody ->
     Js.Map.get name
       (Shared.mergeFunctions oldFunctions functions mergedFunctions)
     = Some newBody)
  /\ (is_Some (Js.Map.get name oldFunctions) ->
      Js.Map.get name functions = None ->
      Js.Map.get name mergedFunctions = None ->
      Js.Map.get name
        (Shared.mergeFunctions oldFunctions functions mergedFunctions)
      = None).
Proof.
  intros Hwf. split.
  - intros newBody Hold Hnew. unfold Shared.mergeFunctions, Js.Map.entries.
    apply merge_fold_new; [exact Hold|exact Hwf|].
    by apply map_get_In.
  - intros _ Hnew Hmerged. unfold Shared.mergeFunctions, Js.Map.entries.
    rewrite merge_fold_untouched; [exact Hmerged|].
    by apply map_get_None_keys.
Qed.

(** ** Import sets: [mergeImports] *)

Lemma strset_has_In x (s : Js.StrSet.t) : Js.StrSet.has x s = true <-> In x s.
Proof.
  induction s as [|y s IH]; simpl; [split; [done|tauto]|].
  destruct (String.eqb_spec y x) as [->|Hne]; [tauto|].
  rewrite IH. split; [tauto|]. intros [?|?]; [done|assumption].
Qed.

Lemma strset_add_In x y (s : Js.StrSet.t) :
  In y (Js.StrSet.add x s) <-> y = x \/ In y s.
Proof.
  unfold Js.StrSet.add. destruct (Js.StrSet.has x s) eqn:E.
  - apply strset_has_In in E. split; [tauto|]. by intros [->|?].
  - rewrite in_app_iff. simpl. split; [intros [?|[?|[]]]|intros [?|?]]; auto.
Qed.

Lemma strset_add_NoDup x (s : Js.StrSet.t) :
  NoDup s -> NoDup (Js.StrSet.add x s).
Proof.
  unfold Js.StrSet.add. intros Hnd. destruct (Js.StrSet.has x s) eqn:E; [done|].
  apply NoDup_app. split; [done|]. split; [|apply NoDup_singleton].
  intros y Hy ->%list_elem_of_singleton.
  apply list_elem_of_In, strset_has_In in Hy. congruence.
Qed.

Lemma strset_add_present x (s : Js.StrSet.t) : In x s -> Js.StrSet.add x s = s.
Proof.
  intros Hin. unfold Js.StrSet.add.
  by apply strset_has_In in Hin as ->.
Qed.

Section AddEach.
Local Abbreviation addEach :=
  (fold_left (fun (s : Js.StrSet.t) importLine => Js.StrSet.add importLine s)).

Lemma addEach_In (xs : list string) (s : Js.StrSet.t) y :
  In y (addEach xs s) <-> In y s \/ In y xs.
Proof.
  revert s. induction xs as [|x xs IH]; intros s; simpl; [tauto|].
  rewrite IH, strset_add_In. intuition congruence.
Qed.

Lemma addEach_NoDup (xs : list string) (s : Js.StrSet.t) :
  NoDup s -> NoDup (addEach xs s).
Proof.
  revert s. induction xs as [|x xs IH]; intros s Hnd; simpl; [done|].
  by apply IH, strset_add_NoDup.
Qed.

Lemma addEach_present (xs : list string) (s : Js.StrSet.t) :
  (forall x, In x xs -> In x s) -> addEach xs s = s.
Proof.
  induction xs as [|x xs IH]; intros Hsub; simpl; [done|].
  rewrite strset_add_present by (apply Hsub; by left).
  apply IH. intros y Hy. apply Hsub. by right.
Qed.

(** Copying a set that has no member twice gives the same members in the
    same order. *)
Lemma addEach_append (xs : list string) (s : Js.StrSet.t) :
  NoDup (s ++ xs) -> addEach xs s = s ++ xs.
Proof.
  revert s. induction xs as [|x xs IH]; intros s Hnd; simpl.
  - by rewrite app_nil_r.
  - assert (Js.StrSet.add x s = s ++ [x]) as ->.
    { unfold Js.StrSet.add. destruct (Js.StrSet.has x s) eqn:E; [|done].
      apply strset_has_In, list_elem_of_In in E.
      apply NoDup_app in Hnd as (_ & Hd & _).
      destruct (Hd x E). by left. }
    rewrite IH; rewrite <- app_assoc; done.
Qed.

End AddEach.

Lemma strset_from_In (xs : list string) y : In y (Js.StrSet.from xs) <-> In y xs.
Proof. unfold Js.StrSet.from. rewrite addEach_In. simpl. tauto. Qed.

Lemma strset_from_NoDup (xs : list string) : NoDup (Js.StrSet.from xs).
Proof. apply addEach_NoDup, NoDup_nil_2. Qed.

Lemma strset_from_id (s : Js.StrSet.t) : NoDup s -> Js.StrSet.from s = s.
Proof. intros Hnd. unfold Js.StrSet.from. by rewrite addEach_append. Qed.

(** C6 (import monotonicity).  The merged import set has no line twice,
    holds exactly the lines of the old set and of the new set (so it
    contains both and drops nothing), and merging it with itself gives it
    back unchanged. *)
Theorem mergeImports_monotone (oldVisitor visitor : V2.Visitor)
    (mergedVisitor : V2.MergedVisitor) :
  let merged :=
    V2.mergedImports (V2.mergeImports oldVisitor visitor mergedVisitor) in
  NoDup merged
  /\ (forall line,
        In line merged <->
        In line (V2.imports oldVisitor) \/ In line (V2.imports visitor))
  /\ (forall line, In line (V2.imports oldVisitor) -> In line merged)
  /\ (forall line, In line (V2.imports visitor) -> In line merged)
  /\ V2.mergeImportSets merged merged = merged.
Proof.
  cbn [V2.mergeImports V2.mergedImports]. unfold V2.mergeImportSets.
  unfold Js.StrSet.values.
  set (old := V2.imports oldVisitor). set (new := V2.imports visitor).
  assert (Hnd : NoDup (fold_left (fun s l => Js.StrSet.add l s) new
                         (Js.StrSet.from old))).
  { apply addEach_NoDup, strset_from_NoDup. }
  assert (Hin : forall line,
             In line (fold_left (fun s l => Js.StrSet.add l s) new
                        (Js.StrSet.from old))
             <-> In line old \/ In line new).
  { intros line. by rewrite addEach_In, strset_from_In. }
  split; [exact Hnd|]. split; [exact Hin|].
  split; [intros line H; apply Hin; by left|].
  split; [intros line H; apply Hin; by right|].
  generalize dependent (fold_left (fun s l => Js.StrSet.add l s) new
                          (Js.StrSet.from old)).
  intros merged Hnd _. rewrite (strset_from_id merged Hnd).
  by apply addEach_present.
Qed.

(** ** Strings *)

Lemma append_nil_l s : EmptyString +:+ s = s.
Proof. reflexivity. Qed.

Lemma append_cons a s t : String a s +:+ t = String a (s +:+ t).
Proof. reflexivity. Qed.

Lemma index_char_nil c : String.index 0 (String c EmptyString) EmptyString = None.
Proof. reflexivity. Qed.

Lemma index_char_cons c b s :
  String.index 0 (String c EmptyString) (String b s)
  = if ascii_dec c b then Some 0 else S <$> String.index 0 (String c EmptyString) s.
Proof.
  cbn [String.index String.prefix].
  destruct (ascii_dec c b); [by destruct s|].
  by destruct (String.index 0 (String c EmptyString) s).
Qed.

Lemma index_char_lt c s k :
  String.index 0 (String c EmptyString) s = Some k -> k < String.length s.
Proof.
  revert k. induction s as [|b s IH]; intros k.
  - by rewrite index_char_nil.
  - rewrite index_char_cons. destruct (ascii_dec c b).
    + intros [= <-]. simpl. lia.
    + destruct (String.index 0 (String c EmptyString) s) as [j|]; [|done].
      intros [= <-]. specialize (IH j eq_refl). simpl. lia.
Qed.

Lemma index_char_app c pre rest :
  String.index 0 (String c EmptyString) pre = None ->
  String.index 0 (String c EmptyString) (pre +:+ String c rest)
  = Some (String.length pre).
Proof.
  induction pre as [|b pre IH]; intros Hpre.
  - rewrite append_nil_l, index_char_cons. by destruct (ascii_dec c c).
  - rewrite index_char_cons in Hpre. rewrite append_cons, index_char_cons. destruct (ascii_dec c b); [done|].
    destruct (String.index 0 (String c EmptyString) pre); [done|].
    by rewrite IH.
Qed.

Lemma substring_prefix_app pre rest :
  String.substring 0 (String.length pre) (pre +:+ rest) = pre.
Proof.
  induction pre as [|b pre IH].
  - rewrite append_nil_l. by destruct rest.
  - rewrite append_cons. cbn [String.length String.substring]. by rewrite IH.
Qed.

Lemma substring_zero s : String.substring 0 0 s = EmptyString.
Proof. by destruct s. Qed.

Lemma length_substring_prefix n s :
  n <= String.length s -> String.length (String.substring 0 n s) = n.
Proof.
  revert n. induction s as [|b s IH]; intros [|n] Hn; simpl in *; try lia; try done.
  rewrite IH; lia.
Qed.

Lemma functionNameOf_index line k :
  String.index 0 "=" line = Some k ->
  Shared.functionNameOf line = String.substring 0 (k - 1) line.
Proof.
  intros Hk. pose proof (index_char_lt _ _ _ Hk) as Hlt.
  unfold Shared.functionNameOf, Js.substring, Js.indexOf, Js.clamp. rewrite Hk.
  replace (Z.to_nat (Z.min (Z.max 0 0) (Z.of_nat (String.length line)))) with 0 by lia.
  replace (Z.to_nat (Z.min (Z.max (Z.of_nat k - 1) 0) (Z.of_nat (String.length line))))
    with (k - 1) by lia.
  by rewrite Nat.min_0_l, Nat.max_0_l, Nat.sub_0_r.
Qed.

Lemma functionNameOf_no_index line :
  String.index 0 "=" line = None -> Shared.functionNameOf line = EmptyString.
Proof.
  intros Hk.
  unfold Shared.functionNameOf, Js.substring, Js.indexOf, Js.clamp. rewrite Hk.
  replace (Z.to_nat (Z.min (Z.max 0 0) (Z.of_nat (String.length line)))) with 0 by lia.
  replace (Z.to_nat (Z.min (Z.max (-1 - 1) 0) (Z.of_nat (String.length line))))
    with 0 by lia.
  apply substring_zero.
Qed.

(** ** The stub extractor: names *)

Lemma map_keys_set_In {V} k (v : V) m x :
  In x (Js.Map.keys (Js.Map.set k v m)) <-> x = k \/ In x (Js.Map.keys m).
Proof.
  rewrite map_keys_set. destruct (Js.Map.has k m) eqn:E.
  - apply map_has_get, map_get_Some_keys in E. split; [tauto|]. by intros [->|?].
  - rewrite in_app_iff. simpl. split; [intros [?|[?|[]]]|intros [?|?]]; auto.
Qed.

Lemma populateLine_keys lines line index functions functions' name :
  Shared.populateLine lines line index functions = Return functions' ->
  In name (Js.Map.keys functions') <->
  In name (Js.Map.keys functions)
  \/ (Shared.declaresStub line = true /\ name = Shared.functionNameOf line).
Proof.
  unfold Shared.populateLine, Shared.declaresStub.
  destruct (Js.includes line "function(ctx)").
  - destruct (Shared.getFunctionBody lines index) as [body|e]; [|done].
    intros [= <-]. rewrite map_keys_set_In.
    unfold Shared.functionNameOf. tauto.
  - intros [= <-]. split; [tauto|]. by intros [?|[? _]].
Qed.

Lemma populateLine_wf lines line index functions functions' :
  Shared.populateLine lines line index functions = Return functions' ->
  Js.Map.wf functions -> Js.Map.wf functions'.
Proof.
  unfold Shared.populateLine.
  destruct (Js.includes line "function(ctx)").
  - destruct (Shared.getFunctionBody lines index) as [body|e]; [|done].
    intros [= <-]. apply map_wf_set.
  - by intros [= <-].
Qed.

Lemma eachOfSeries_populate_keys lines coll index functions functions' name :
  Shared.eachOfSeries coll index (Shared.populateLine lines) functions
  = Return functions' ->
  In name (Js.Map.keys functions') <->
  In name (Js.Map.keys functions)
  \/ exists line, In line coll /\ Shared.declaresStub line = true
                  /\ name = Shared.functionNameOf line.
Proof.
  revert index functions.
  induction coll as [|line coll IH]; intros index functions; cbn [Shared.eachOfSeries].
  - intros [= <-]. split; [tauto|]. by intros [?|(? & [] & _)].
  - destruct (Shared.populateLine lines line index functions) as [f1|e] eqn:E;
      [|done].
    cbn. intros Hrest. rewrite (IH _ _ Hrest), (populateLine_keys _ _ _ _ _ _ E).
    split.
    + intros [[?|[? ?]]|(l & ? & ? & ?)]; [by left| |].
      * right. exists line. split; [by left|done].
      * right. exists l. split; [by right|done].
    + intros [?|(l & [<-|?] & ? & ?)]; [by left; left|by left; right|].
      right. by exists l.
Qed.

Lemma eachOfSeries_populate_wf lines coll index functions functions' :
  Shared.eachOfSeries coll index (Shared.populateLine lines) functions
  = Return functions' ->
  Js.Map.wf functions -> Js.Map.wf functions'.
Proof.
  revert index functions.
  induction coll as [|line coll IH]; intros index functions; cbn [Shared.eachOfSeries].
  - by intros [= <-].
  - destruct (Shared.populateLine lines line index functions) as [f1|e] eqn:E;
      [|done].
    cbn. intros Hrest Hwf. eapply IH; [exact Hrest|].
    by eapply populateLine_wf.
Qed.

Lemma populateVisitorFunctions_wf lines functions functions' :
  Shared.populateVisitorFunctions lines functions = Return functions' ->
  Js.Map.wf functions -> Js.Map.wf functions'.
Proof. apply eachOfSeries_populate_wf. Qed.

Lemma NoDup_all_equal (a : string) (l : list string) :
  NoDup l -> (forall x, In x l -> x = a) -> l = [] \/ l = [a].
Proof.
  destruct l as [|x [|y l]]; intros Hnd Hall; [by left| |].
  - right. f_equal. apply Hall. by left.
  - exfalso. apply NoDup_cons in Hnd as [Hx _]. apply Hx.
    rewrite (Hall x), (Hall y); [by left|right; by left|by left].
Qed.

(** C10 (stub names).  The name of a stub is what precedes the first [=]
    of its declaring line, less one character, indentation included; a
    declaring line without [=] gets the empty name; [populateVisitorFunctions]
    files every stub under the name so derived, so that the stubs of a
    file whose declaring lines have no [=] all share the one key [""]. *)
Theorem stub_name_derivation :
  (forall line k,
     String.index 0 "=" line = Some k ->
     Shared.functionNameOf line = String.substring 0 (k - 1) line
     /\ String.length (Shared.functionNameOf line) = k - 1)
  /\ (forall pre c rest,
        Js.includes (pre +:+ String c EmptyString) "=" = false ->
        Shared.functionNameOf (pre +:+ String c ("=" +:+ rest)) = pre)
  /\ (forall line,
        Js.includes line "=" = false ->
        Shared.functionNameOf line = EmptyString)
  /\ (forall lines functions functions' name,
        Shared.populateVisitorFunctions lines functions = Return functions' ->
        In name (Js.Map.keys functions') <->
        In name (Js.Map.keys functions)
        \/ exists line, In line lines /\ Shared.declaresStub line = true
                        /\ name = Shared.functionNameOf line)
  /\ (forall lines functions',
        (forall line, In line lines -> Shared.declaresStub line = true ->
                      Js.includes line "=" = false) ->
        Shared.populateVisitorFunctions lines Js.Map.empty = Return functions' ->
        Js.Map.keys functions'
        = if existsb Shared.declaresStub lines then [EmptyString] else []).
Proof.
  split; [|split; [|split; [|split]]].
  - intros line k Hk. rewrite (functionNameOf_index _ _ Hk). split; [done|].
    apply length_substring_prefix. apply index_char_lt in Hk. lia.
  - intros pre c rest Hno.
    assert (Hidx : String.index 0 "=" (pre +:+ String c ("=" +:+ rest))
                   = Some (S (String.length pre))).
    { replace (pre +:+ String c ("=" +:+ rest))
        with ((pre +:+ String c EmptyString) +:+ String "="%char rest).
      - unfold Js.includes in Hno.
        destruct (String.index 0 "=" (pre +:+ String c EmptyString)) eqn:E;
          [done|].
        rewrite (index_char_app _ _ _ E). f_equal.
        clear. induction pre as [|b pre IH]; [done|].
        rewrite append_cons. cbn [String.length]. by rewrite IH.
      - clear. induction pre as [|b pre IH]; [done|].
        rewrite !append_cons. by rewrite IH. }
    rewrite (functionNameOf_index _ _ Hidx).
    replace (S (String.length pre) - 1) with (String.length pre) by lia.
    apply substring_prefix_app.
  - intros line Hno. apply functionNameOf_no_index.
    unfold Js.includes in Hno. by destruct (String.index 0 "=" line).
  - intros lines functions functions' name.
    apply eachOfSeries_populate_keys.
  - intros lines functions' Hno Hpop.
    pose proof (populateVisitorFunctions_wf _ _ _ Hpop map_wf_empty) as Hwf.
    assert (Hkeys : forall name, In name (Js.Map.keys functions') <->
              exists line, In line lines /\ Shared.declaresStub line = true
                           /\ name = Shared.functionNameOf line).
    { intros name. rewrite (eachOfSeries_populate_keys _ _ _ _ _ name Hpop).
      split; [by intros [[]|?]|by right]. }
    destruct (existsb Shared.declaresStub lines) eqn:Hex.
    + apply existsb_exists in Hex as (line & Hin & Hdecl).
      destruct (NoDup_all_equal EmptyString (Js.Map.keys functions') Hwf) as [Hk|Hk].
      * intros x (l & Hl & Hd & ->)%Hkeys.
        apply functionNameOf_no_index. specialize (Hno l Hl Hd).
        unfold Js.includes in Hno. by destruct (String.index 0 "=" l).
      * exfalso. assert (In (Shared.functionNameOf line) (Js.Map.keys functions')) as Hi.
        { apply Hkeys. by exists line. }
        rewrite Hk in Hi. destruct Hi.
      * exact Hk.
    + destruct (Js.Map.keys functions') as [|name rest] eqn:Hk; [done|].
      exfalso. assert (In name (name :: rest)) as Hi by (by left).
      apply Hkeys in Hi as (l & Hl & Hd & _).
      assert (existsb Shared.declaresStub lines = true); [|congruence].
      apply existsb_exists. by exists l.
Qed.

(** ** The stub extractor: bodies *)

Lemma depthOf_cons line span :
  Scan.depthOf (line :: span) = (Scan.braceDelta line + Scan.depthOf span)%Z.
Proof. reflexivity. Qed.

Lemma scan_numBraces line (numBraces : Z) :
  (let n := if Js.includes line "{" then (numBraces + 1)%Z else numBraces in
   if Js.includes line "}" then (n - 1)%Z else n)
  = (numBraces + Scan.braceDelta line)%Z.
Proof.
  unfold Scan.braceDelta. cbv zeta.
  destruct (Js.includes line "{"), (Js.includes line "}"); lia.
Qed.

(** What the loop returns, for any depth and any lines already pushed. *)
Lemma scanFunctionBody_spec pending numBraces functionBody :
  match Shared.scanFunctionBody pending numBraces functionBody with
  | Return scanned =>
      exists k, 0 < k <= length pending
        /\ scanned = functionBody ++ take k pending
        /\ (numBraces + Scan.depthOf (take k pending) <= 0)%Z
        /\ forall j, 0 < j < k ->
                     (0 < numBraces + Scan.depthOf (take j pending))%Z
  | Raise e =>
      e = TypeError
      /\ forall j, 0 < j <= length pending ->
                   (0 < numBraces + Scan.depthOf (take j pending))%Z
  end.
Proof.
  revert numBraces functionBody.
  induction pending as [|line pending IH]; intros numBraces functionBody.
  - cbn. split; [done|]. intros j Hj. lia.
  - cbn [Shared.scanFunctionBody]. rewrite scan_numBraces.
    destruct (0 <? numBraces + Scan.braceDelta line)%Z eqn:Hpos.
    + apply Z.ltb_lt in Hpos.
      specialize (IH (numBraces + Scan.braceDelta line)%Z (functionBody ++ [line])).
      destruct (Shared.scanFunctionBody pending _ _) as [scanned|e].
      * destruct IH as (k & Hk & -> & Hle & Hmin). exists (S k).
        split; [cbn; lia|]. split; [by rewrite <- app_assoc|].
        cbn [take]. rewrite depthOf_cons. split; [lia|].
        intros [|j] Hj; [lia|]. cbn [take]. rewrite depthOf_cons.
        destruct j as [|j];
          [rewrite take_0; change (Scan.depthOf []) with 0%Z; lia|].
        specialize (Hmin (S j)). lia.
      * destruct IH as (-> & Hall). split; [done|].
        intros [|j] Hj; [lia|]. cbn [take]. rewrite depthOf_cons.
        destruct j as [|j];
          [rewrite take_0; change (Scan.depthOf []) with 0%Z; lia|].
        specialize (Hall (S j)). cbn in Hj. lia.
    + apply Z.ltb_ge in Hpos. exists 1.
      split; [cbn; lia|]. split; [done|].
      cbn [take]. rewrite depthOf_cons, take_0.
      change (Scan.depthOf []) with 0%Z. split; [lia|]. intros j Hj. lia.
Qed.

Lemma closesAfter_unique pending k k' :
  Scan.closesAfter pending k -> Scan.closesAfter pending k' -> k = k'.
Proof.
  intros (Hk & Hle & Hmin) (Hk' & Hle' & Hmin').
  destruct (Nat.lt_trichotomy k k') as [Hlt|[->|Hlt]]; [|done|].
  - specialize (Hmin' k). lia.
  - specialize (Hmin k'). lia.
Qed.

Lemma slice_inner {A} (l : list A) :
  Js.slice l 1 (-1) = take (length l - 2) (drop 1 l).
Proof.
  unfold Js.slice, Js.relative.
  change (1 <? 0)%Z with false. change (-1 <? 0)%Z with true. cbv iota.
  replace (Z.to_nat (1 `min` Z.of_nat (length l))) with (1 `min` length l) by lia.
  replace (Z.to_nat ((Z.of_nat (length l) + -1) `max` 0)) with (length l - 1) by lia.
  destruct l as [|x l]; [done|]. cbn [length].
  replace (1 `min` S (length l)) with 1 by lia.
  f_equal. lia.
Qed.

Lemma take_inner_of_prefix {A} (p : list A) k :
  take (k - 2) (drop 1 (take k p)) = take (k - 2) (drop 1 p).
Proof.
  destruct p as [|x p]; [by rewrite take_nil|].
  destruct k as [|k]; [done|].
  replace (S k - 2) with (k - 1) by lia.
  change (drop 1 (take (S k) (x :: p))) with (take k p).
  change (drop 1 (x :: p)) with p.
  rewrite take_take. f_equal. lia.
Qed.

Lemma getFunctionBody_closes lines currentIndex k :
  Scan.closesAfter (drop currentIndex lines) k ->
  Shared.getFunctionBody lines currentIndex
  = Return (take (k - 2) (drop (S currentIndex) lines)).
Proof.
  intros Hclose. unfold Shared.getFunctionBody.
  pose proof (scanFunctionBody_spec (drop currentIndex lines) 0 []) as Hscan.
  destruct (Shared.scanFunctionBody _ _ _) as [scanned|e].
  - destruct Hscan as (k' & Hk' & -> & Hle & Hmin).
    assert (k' = k) as ->.
    { apply (closesAfter_unique (drop currentIndex lines)); [|done].
      split; [done|]. split; [lia|]. intros j Hj. specialize (Hmin j Hj). lia. }
    unfold mbind, Js.outcome_bind. f_equal.
    rewrite slice_inner, app_nil_l, length_take.
    replace (k `min` length (drop currentIndex lines)) with k by lia.
    rewrite take_inner_of_prefix, drop_drop. do 2 f_equal. lia.
  - destruct Hscan as (_ & Hall). destruct Hclose as (Hk & Hle & _).
    specialize (Hall k Hk). lia.
Qed.

Lemma getFunctionBody_unclosed lines currentIndex :
  (forall k, ~ Scan.closesAfter (drop currentIndex lines) k) ->
  Shared.getFunctionBody lines currentIndex = Raise TypeError.
Proof.
  intros Hnone. unfold Shared.getFunctionBody.
  pose proof (scanFunctionBody_spec (drop currentIndex lines) 0 []) as Hscan.
  destruct (Shared.scanFunctionBody _ _ _) as [scanned|e].
  - destruct Hscan as (k & Hk & _ & Hle & Hmin). destruct (Hnone k).
    split; [done|]. split; [lia|]. intros j Hj. specialize (Hmin j Hj). lia.
  - by destruct Hscan as (-> & _).
Qed.

Lemma closesAfter_or_never pending :
  (exists k, Scan.closesAfter pending k) \/ (forall k, ~ Scan.closesAfter pending k).
Proof.
  pose proof (scanFunctionBody_spec pending 0 []) as Hscan.
  destruct (Shared.scanFunctionBody _ _ _) as [scanned|e].
  - left. destruct Hscan as (k & Hk & _ & Hle & Hmin). exists k.
    split; [done|]. split; [lia|]. intros j Hj. specialize (Hmin j Hj). lia.
  - right. destruct Hscan as (_ & Hall). intros k (Hk & Hle & _).
    specialize (Hall k Hk). lia.
Qed.

(** What the scan of [getFunctionBody] computes.  From the declaring
    line on, every line moves the depth by [Scan.braceDelta]; the scan
    ends with the first line, the declaring line included, after which
    the depth is not positive, and the lines strictly between are handed
    back; when no line ends the scan, the read past the last line
    throws. *)
Theorem getFunctionBody_scans_line_depth (lines : list string)
    (currentIndex : nat) :
  (forall k,
     Scan.closesAfter (drop currentIndex lines) k ->
     Shared.getFunctionBody lines currentIndex
     = Return (take (k - 2) (drop (S currentIndex) lines)))
  /\ ((forall k, ~ Scan.closesAfter (drop currentIndex lines) k) ->
      Shared.getFunctionBody lines currentIndex = Raise TypeError)
  /\ ((exists k, Scan.closesAfter (drop currentIndex lines) k)
      \/ (forall k, ~ Scan.closesAfter (drop currentIndex lines) k)).
Proof.
  split; [apply getFunctionBody_closes|].
  split; [apply getFunctionBody_unclosed|].
  apply closesAfter_or_never.
Qed.

Lemma getFunctionBody_scans_line_depth_witness :
  Shared.getFunctionBody
    ["X.visitA = function(ctx) {"; "  if (a) {"; "    return 1;"; "  }"; "};";
     "tail"] 0
  = Return ["  if (a) {"; "    return 1;"; "  }"].
Proof.
  refine (proj1 (getFunctionBody_scans_line_depth
    ["X.visitA = function(ctx) {"; "  if (a) {"; "    return 1;"; "  }"; "};";
     "tail"] 0) 5 _).
  split; [cbn; lia|]. split; [by vm_compute|].
  intros j Hj.
  assert (j = 1 \/ j = 2 \/ j = 3 \/ j = 4) as [-> | [-> | [-> | ->] ] ] by lia;
    by vm_compute.
Defined.

(** C4 (stub extraction), at inputs where the code departs from it.
    The running depth is to count every [{] and every [}] of a line; the
    code counts a line once however many braces it holds.  On a body that
    opens two blocks on one line the scan ends two lines early and the
    body comes back without its last line; on a balanced stub that
    closes two blocks on one line the scan never ends and the extraction
    throws. *)
Theorem getFunctionBody_miscounts_braces :
  (Worded.getFunctionBody
     ["f = function(ctx) {"; "  if (a) { if (b) {"; "  }"; "  }"; "};"] 0
   = Some ["  if (a) { if (b) {"; "  }"; "  }"]
   /\ Shared.getFunctionBody
        ["f = function(ctx) {"; "  if (a) { if (b) {"; "  }"; "  }"; "};"] 0
      = Return ["  if (a) { if (b) {"; "  }"])
  /\ (Worded.getFunctionBody
        ["f = function(ctx) {"; "  if (a) {"; "    if (b) {"; "  }}"; "};"] 0
      = Some ["  if (a) {"; "    if (b) {"; "  }}"]
      /\ Shared.getFunctionBody
           ["f = function(ctx) {"; "  if (a) {"; "    if (b) {"; "  }}"; "};"] 0
         = Raise TypeError).
Proof. repeat split; vm_compute; reflexivity. Qed.

(** ** The stub extractor: whole files *)

Lemma drop_cons_inv {A} (l : list A) n x rest :
  drop n l = x :: rest -> l !! n = Some x /\ drop (S n) l = rest.
Proof.
  intros Hd. split.
  - rewrite <- (Nat.add_0_r n), <- lookup_drop. by rewrite Hd.
  - replace (S n) with (n + 1) by lia. rewrite <- drop_drop. by rewrite Hd.
Qed.

Lemma populateLine_stub lines line index functions :
  Js.includes line "function(ctx)" = true ->
  Shared.populateLine lines line index functions
  = (functionBody ← Shared.getFunctionBody lines index;
     Return (Js.Map.set (Shared.functionNameOf line) functionBody functions)).
Proof. unfold Shared.populateLine. by intros ->. Qed.

Lemma populateLine_other lines line index functions :
  Js.includes line "function(ctx)" = false ->
  Shared.populateLine lines line index functions = Return functions.
Proof. unfold Shared.populateLine. by intros ->. Qed.

Lemma eachOfSeries_populate_outcome lines coll index functions :
  coll = drop index lines ->
  match Shared.eachOfSeries coll index (Shared.populateLine lines) functions with
  | Return _ => forall i, index <= i -> ~ Scan.unclosedAt lines i
  | Raise e => e = TypeError /\ exists i, index <= i /\ Scan.unclosedAt lines i
  end.
Proof.
  revert index functions.
  induction coll as [|line coll IH]; intros index functions Hcoll.
  - cbn. intros i Hi [(l & Hl & _) _].
    assert (length lines <= index) as Hlen.
    { destruct (decide (length lines <= index)) as [|Hn]; [done|].
      assert (length (drop index lines) = 0) as Hz by (by rewrite <- Hcoll).
      rewrite length_drop in Hz. lia. }
    apply lookup_lt_Some in Hl. lia.
  - symmetry in Hcoll. apply drop_cons_inv in Hcoll as [Hline Hrest].
    cbn [Shared.eachOfSeries].
    destruct (Js.includes line "function(ctx)") eqn:Hdecl.
    + rewrite (populateLine_stub _ _ _ _ Hdecl).
      destruct (closesAfter_or_never (drop index lines)) as [[k Hk]|Hnever].
      * rewrite (getFunctionBody_closes _ _ _ Hk). cbn.
        specialize (IH (S index)
          (Js.Map.set (Shared.functionNameOf line)
             (take (k - 2) (drop (S index) lines)) functions) (eq_sym Hrest)).
        destruct (Shared.eachOfSeries coll (S index) _ _) as [f|e].
        -- intros i Hi. destruct (decide (i = index)) as [->|Hne].
           ++ intros [_ Hnone]. by apply (Hnone k).
           ++ apply IH. lia.
        -- destruct IH as (-> & i & Hi & Hu). split; [done|].
           exists i. split; [lia|done].
      * rewrite (getFunctionBody_unclosed _ _ Hnever). cbn. split; [done|].
        exists index. split; [done|]. split; [|done]. by exists line.
    + rewrite (populateLine_other _ _ _ _ Hdecl). cbn.
      specialize (IH (S index) functions (eq_sym Hrest)).
      destruct (Shared.eachOfSeries coll (S index) _ _) as [f|e].
      * intros i Hi. destruct (decide (i = index)) as [->|Hne].
        -- intros [(l & Hl & Hd) _]. unfold Shared.declaresStub in Hd. congruence.
        -- apply IH. lia.
      * destruct IH as (-> & i & Hi & Hu). split; [done|].
        exists i. split; [lia|done].
Qed.

Lemma populateVisitorFunctions_outcome lines functions :
  match Shared.populateVisitorFunctions lines functions with
  | Return _ => forall i, ~ Scan.unclosedAt lines i
  | Raise e => e = TypeError /\ exists i, Scan.unclosedAt lines i
  end.
Proof.
  pose proof (eachOfSeries_populate_outcome lines lines 0 functions eq_refl) as H.
  unfold Shared.populateVisitorFunctions.
  destruct (Shared.eachOfSeries lines 0 _ _) as [f|e].
  - intros i. apply H. lia.
  - destruct H as (-> & i & _ & Hu). split; [done|]. by exists i.
Qed.

Lemma eachOfSeries_no_stub lines coll index functions :
  existsb Shared.declaresStub coll = false ->
  Shared.eachOfSeries coll index (Shared.populateLine lines) functions
  = Return functions.
Proof.
  revert index. induction coll as [|line coll IH]; intros index Hno; [done|].
  cbn [existsb] in Hno. apply orb_false_iff in Hno as [Hline Hno].
  cbn [Shared.eachOfSeries]. rewrite (populateLine_other _ _ _ _ Hline).
  by apply IH.
Qed.

Lemma populateVisitorFunctions_no_stub lines functions :
  existsb Shared.declaresStub lines = false ->
  Shared.populateVisitorFunctions lines functions = Return functions.
Proof. apply eachOfSeries_no_stub. Qed.

Lemma V1_parseVisitorData_unfold data :
  V1.parseVisitorData data V1.emptyVisitor
  = (functions ← Shared.populateVisitorFunctions (Js.split data) Js.Map.empty;
     Return {| V1.lines := Js.split data; V1.functions := functions |}).
Proof. reflexivity. Qed.

Lemma V2_parseVisitorData_unfold data :
  V2.parseVisitorData data V2.emptyVisitor
  = (functions ← Shared.populateVisitorFunctions (Js.split data) Js.Map.empty;
     Return (V2.populateVisitorImports
               {| V2.lines := Js.split data; V2.functions := functions;
                  V2.imports := Js.StrSet.empty |})).
Proof.
  unfold V2.parseVisitorData, V2.populateVisitorFunctions, V2.parseVisitorLines.
  cbn [V2.lines V2.functions V2.imports V2.emptyVisitor app].
  by destruct (Shared.populateVisitorFunctions _ _).
Qed.

(** When the extraction of a file ends in a failure.  A file that
    cannot be read makes [parseVisitor] hand an [Error] to its callback;
    a file that can be read makes the extraction throw a [TypeError]
    exactly when some stub declaration is never closed by the scan; every
    other content gives a model, with no stub when no line declares
    one. *)
Theorem extraction_fails_exactly_on_unclosed_stub (data : string) :
  ((exists index, Scan.unclosedAt (Js.split data) index) ->
     V1.parseVisitorData data V1.emptyVisitor = Raise TypeError
     /\ V2.parseVisitorData data V2.emptyVisitor = Raise TypeError)
  /\ ((forall index, ~ Scan.unclosedAt (Js.split data) index) ->
      exists functions,
        Js.Map.wf functions
        /\ V1.parseVisitorData data V1.emptyVisitor
           = Return {| V1.lines := Js.split data; V1.functions := functions |}
        /\ V2.parseVisitorData data V2.emptyVisitor
           = Return (V2.populateVisitorImports
                       {| V2.lines := Js.split data; V2.functions := functions;
                          V2.imports := Js.StrSet.empty |}))
  /\ (existsb Shared.declaresStub (Js.split data) = false ->
      V1.parseVisitorData data V1.emptyVisitor
      = Return {| V1.lines := Js.split data; V1.functions := Js.Map.empty |}
      /\ V2.parseVisitorData data V2.emptyVisitor
         = Return (V2.populateVisitorImports
                     {| V2.lines := Js.split data;
                        V2.functions := Js.Map.empty;
                        V2.imports := Js.StrSet.empty |}))
  /\ (forall file w,
        Node.files w !! file = Some data ->
        V1.parseVisitor file V1.emptyVisitor w
        = (V1.parseVisitorData data V1.emptyVisitor, w)
        /\ V2.parseVisitor file V2.emptyVisitor w
           = (V2.parseVisitorData data V2.emptyVisitor, w))
  /\ (forall file w,
        Node.files w !! file = None ->
        V1.parseVisitor file V1.emptyVisitor w
        = (Raise (Error ("Could not parse visitor lines: "
                         +:+ Node.readError file)), w)
        /\ V2.parseVisitor file V2.emptyVisitor w
           = (Raise (Error ("Could not parse visitor lines: "
                            +:+ Node.readError file)), w)).
Proof.
  rewrite V1_parseVisitorData_unfold, V2_parseVisitorData_unfold.
  pose proof (populateVisitorFunctions_outcome (Js.split data) Js.Map.empty) as Hout.
  pose proof (populateVisitorFunctions_wf (Js.split data) Js.Map.empty) as Hwf.
  split; [|split; [|split; [|split]]].
  - intros [index Hu].
    destruct (Shared.populateVisitorFunctions _ _) as [f|e].
    + destruct (Hout index Hu).
    + by destruct Hout as [-> _].
  - intros Hnone.
    destruct (Shared.populateVisitorFunctions _ _) as [f|e].
    + exists f. split; [by apply (Hwf f eq_refl), map_wf_empty|done].
    + destruct Hout as (_ & i & Hu). destruct (Hnone i Hu).
  - intros Hno. by rewrite (populateVisitorFunctions_no_stub _ _ Hno).
  - intros file w Hfile.
    unfold V1.parseVisitor, V2.parseVisitor, Node.readFile, Node.lift.
    unfold mbind, Node.io_bind. rewrite Hfile.
    by rewrite V1_parseVisitorData_unfold, V2_parseVisitorData_unfold.
  - intros file w Hfile.
    unfold V1.parseVisitor, V2.parseVisitor, Node.readFile, Node.lift.
    unfold mbind, Node.io_bind. by rewrite Hfile.
Qed.

(** C5 (the extractor is total on file content), at an input where the
    code departs from it.  The file can be read; its one line declares a
    stub that no later line closes.  The scan reads the element past the
    last line, which is [undefined], and the extraction ends in a thrown
    [TypeError], in both scripts, instead of a model or of an [Error]
    handed to the callback. *)
Theorem extraction_fails_on_readable_content :
  Node.files
    {| Node.files := {[ "GVisitor.js" := "G.visitA = function(ctx) {" ]};
       Node.writable := fun _ => true; Node.journal := [] |}
    !! "GVisitor.js" = Some "G.visitA = function(ctx) {"
  /\ fst (V1.parseVisitor "GVisitor.js" V1.emptyVisitor
            {| Node.files := {[ "GVisitor.js" := "G.visitA = function(ctx) {" ]};
               Node.writable := fun _ => true; Node.journal := [] |})
     = Raise TypeError
  /\ fst (V2.parseVisitor "GVisitor.js" V2.emptyVisitor
            {| Node.files := {[ "GVisitor.js" := "G.visitA = function(ctx) {" ]};
               Node.writable := fun _ => true; Node.journal := [] |})
     = Raise TypeError.
Proof. repeat split; vm_compute; reflexivity. Qed.

(** ** The serializer: [mergeLines] *)

Lemma splice_after {A} (before : list A) (x : A) (after body : list A) n :
  n = length before + 1 ->
  Js.splice (Js.splice ((before ++ [x]) ++ after) n 1 []) n 0 body
  = (before ++ [x]) ++ body ++ tail after.
Proof.
  intros ->. unfold Js.splice.
  assert (Hlen : length before + 1 = length (before ++ [x])).
  { rewrite length_app. cbn. lia. }
  rewrite (take_app_length' _ _ _ Hlen), (drop_app_add' _ _ _ 1 Hlen).
  rewrite app_nil_l, Nat.add_0_r.
  rewrite (take_app_length' _ _ _ Hlen), (drop_app_length' _ _ _ Hlen).
  by destruct after.
Qed.

Lemma spliceStub_at functions (orig : list string) i line :
  orig !! i = Some line ->
  Shared.spliceStub functions i
    ((Some <$> take (S i) orig) ++ Forward.rewritten functions (drop (S i) orig))
  = Return ((Some <$> take i orig) ++ Forward.rewritten functions (drop i orig)).
Proof.
  intros Hline.
  assert (Hi : i < length orig) by (by apply lookup_lt_Some in Hline).
  assert (Hlen : length (Some <$> take i orig) = i).
  { rewrite length_fmap, length_take_le; lia. }
  rewrite (take_S_r _ _ _ Hline), fmap_app. cbn [fmap list_fmap].
  rewrite (drop_S _ _ _ Hline). cbn [Forward.rewritten].
  unfold Shared.spliceStub, Shared.lineAt.
  rewrite <- app_assoc, lookup_app_r by lia.
  rewrite Hlen, Nat.sub_diag. cbn [app lookup list_lookup mjoin option_join].
  unfold Shared.declaresStub. fold (Shared.functionNameOf line).
  destruct (Js.includes line "function(ctx)"); [|done].
  f_equal.
  change (Some line :: Forward.rewritten functions (drop (S i) orig))
    with ([Some line] ++ Forward.rewritten functions (drop (S i) orig)).
  rewrite app_assoc, splice_after by lia.
  by rewrite <- !app_assoc.
Qed.

Lemma spliceStubs_rewritten functions (orig : list string) n :
  n <= length orig ->
  Shared.spliceStubs functions n
    ((Some <$> take n orig) ++ Forward.rewritten functions (drop n orig))
  = Return (Forward.rewritten functions orig).
Proof.
  induction n as [|i IH]; intros Hn.
  - done.
  - destruct (lookup_lt_is_Some_2 orig i) as [line Hline]; [lia|].
    cbn [Shared.spliceStubs]. rewrite (spliceStub_at _ _ _ _ Hline).
    cbn. apply IH. lia.
Qed.

Lemma spliceStubs_all functions (orig : list string) :
  Shared.spliceStubs functions (length (Some <$> orig)) (Some <$> orig)
  = Return (Forward.rewritten functions orig).
Proof.
  rewrite length_fmap.
  rewrite <- (spliceStubs_rewritten functions orig (length orig)) by done.
  by rewrite take_ge, drop_ge, app_nil_r.
Qed.

Lemma rewritten_stub functions decl next rest :
  Shared.declaresStub decl = true ->
  Shared.declaresStub next = false ->
  Forward.rewritten functions (decl :: next :: rest)
  = Some decl
    :: Js.concat_arg (Js.Map.get (Shared.functionNameOf decl) functions)
    ++ Forward.rewritten functions rest.
Proof. intros Hd Hn. cbn [Forward.rewritten]. by rewrite Hd, Hn. Qed.

Lemma rewritten_other functions line rest :
  Shared.declaresStub line = false ->
  Forward.rewritten functions (line :: rest)
  = Some line :: Forward.rewritten functions rest.
Proof. intros Hd. cbn [Forward.rewritten]. by rewrite Hd. Qed.

(** C7 (serialization), as the code has it.  The backward scan of
    [mergeLines] always ends, and leaves what one forward pass over the
    scanned lines gives ([Forward.rewritten]): a line that declares no
    stub is copied; a stub declaration is copied and followed by the
    merged body for its name, and exactly one line, the one right after
    the declaration, is left out, so that the rest of a longer
    placeholder body and the closing line stay.  The later script scans
    the lines in which the merged imports have replaced the line at
    index 2. *)
Theorem mergeLines_replaces_one_line :
  (forall visitor mergedVisitor,
     V1.mergedLines mergedVisitor = [] ->
     V1.mergeLines visitor mergedVisitor
     = Return
         {| V1.mergedLines :=
              Forward.rewritten (V1.mergedFunctions mergedVisitor)
                (V1.lines visitor);
            V1.mergedFunctions := V1.mergedFunctions mergedVisitor |})
  /\ (forall visitor mergedVisitor,
        V2.mergedLines mergedVisitor = [] ->
        V2.mergeLines visitor mergedVisitor
        = Return
            {| V2.mergedLines :=
                 Forward.rewritten (V2.mergedFunctions mergedVisitor)
                   (Js.splice (V2.lines visitor) 2 1
                      (Js.StrSet.values (V2.mergedImports mergedVisitor)));
               V2.mergedFunctions := V2.mergedFunctions mergedVisitor;
               V2.mergedImports := V2.mergedImports mergedVisitor |})
  /\ (forall functions decl next rest,
        Shared.declaresStub decl = true ->
        Shared.declaresStub next = false ->
        Forward.rewritten functions (decl :: next :: rest)
        = Some decl
          :: Js.concat_arg (Js.Map.get (Shared.functionNameOf decl) functions)
          ++ Forward.rewritten functions rest)
  /\ (forall functions line rest,
        Shared.declaresStub line = false ->
        Forward.rewritten functions (line :: rest)
        = Some line :: Forward.rewritten functions rest).
Proof.
  split; [|split; [|split]].
  - intros visitor mergedVisitor Hempty. unfold V1.mergeLines.
    rewrite Hempty, app_nil_l. by rewrite spliceStubs_all.
  - intros visitor mergedVisitor Hempty. unfold V2.mergeLines.
    rewrite Hempty, app_nil_l.
    assert (Hsplice :
      Js.splice (Some <$> V2.lines visitor) 2 1
        (Some <$> Js.StrSet.values (V2.mergedImports mergedVisitor))
      = Some <$> Js.splice (V2.lines visitor) 2 1
                   (Js.StrSet.values (V2.mergedImports mergedVisitor))).
    { unfold Js.splice. by rewrite !fmap_app, fmap_take, fmap_drop. }
    rewrite Hsplice. by rewrite spliceStubs_all.
  - apply rewritten_stub.
  - apply rewritten_other.
Qed.

Lemma mergeLines_replaces_one_line_witness :
  V1.mergeLines
    {| V1.lines := ["G.visitA = function(ctx) {";
                    "  return this.visitChildren(ctx);"; "};"];
       V1.functions := [("G.visitA", ["  return this.visitChildren(ctx);"])] |}
    {| V1.mergedLines := [];
       V1.mergedFunctions := [("G.visitA", ["  const a = 1;"; "  return a;"])] |}
  = Return
      {| V1.mergedLines :=
           [Some "G.visitA = function(ctx) {"; Some "  const a = 1;";
            Some "  return a;"; Some "};"];
         V1.mergedFunctions :=
           [("G.visitA", ["  const a = 1;"; "  return a;"])] |}.
Proof.
  refine (proj1 mergeLines_replaces_one_line
    {| V1.lines := ["G.visitA = function(ctx) {";
                    "  return this.visitChildren(ctx);"; "};"];
       V1.functions := [("G.visitA", ["  return this.visitChildren(ctx);"])] |}
    {| V1.mergedLines := [];
       V1.mergedFunctions := [("G.visitA", ["  const a = 1;"; "  return a;"])] |}
    _).
  reflexivity.
Defined.

(** C7, as worded, fails: of a placeholder body of two lines the code
    removes the first only; the worded serializer removes the span
    through the closing line. *)
Lemma mergeLines_keeps_rest_of_span :
  V1.mergeLines
    {| V1.lines := ["G.visitA = function(ctx) {"; "  a();"; "  b();"; "};";
                    "tail"];
       V1.functions := [("G.visitA", ["  a();"; "  b();"])] |}
    {| V1.mergedLines := [];
       V1.mergedFunctions := [("G.visitA", ["  edited();"])] |}
  = Return
      {| V1.mergedLines :=
           [Some "G.visitA = function(ctx) {"; Some "  edited();";
            Some "  b();"; Some "};"; Some "tail"];
         V1.mergedFunctions := [("G.visitA", ["  edited();"])] |}
  /\ Worded.serialized [("G.visitA", ["  edited();"])] 0
       ["G.visitA = function(ctx) {"; "  a();"; "  b();"; "};"; "tail"]
     = [Some "G.visitA = function(ctx) {"; Some "  edited();"; Some "tail"].
Proof. split; vm_compute; reflexivity. Qed.

(** ** The differ of [regenerateVisitor.js] *)

Lemma equalBodyFrom_prefix index functionBody other :
  V1.equalBodyFrom index functionBody other = true
  <-> functionBody `prefix_of` drop index other.
Proof.
  revert index. induction functionBody as [|line rest IH]; intros index.
  - split; [intros _; apply prefix_nil|done].
  - cbn [V1.equalBodyFrom].
    destruct (other !! index) as [line'|] eqn:Hl.
    + rewrite (drop_S _ _ _ Hl).
      destruct (String.eqb_spec line line') as [<-|Hne].
      * rewrite IH. split; [apply prefix_cons|apply prefix_cons_inv_2].
      * split; [done|]. intros Hp. by apply prefix_cons_inv_1 in Hp.
    + apply lookup_ge_None in Hl. rewrite drop_ge by done.
      split; [done|]. intros Hp. by apply prefix_nil_inv in Hp.
Qed.

(** What [equalVisitors] decides: as many stubs on both sides, and every
    body of the first model a prefix of the body that the second model
    has under the same name. *)
Lemma equalVisitors_true_iff v0 v1 :
  V1.equalVisitors v0 v1 = true
  <-> Js.Map.size (V1.functions v0) = Js.Map.size (V1.functions v1)
      /\ forall name body,
           In (name, body) (Js.Map.entries (V1.functions v0)) ->
           exists other, Js.Map.get name (V1.functions v1) = Some other
                         /\ body `prefix_of` other.
Proof.
  unfold V1.equalVisitors.
  destruct (Nat.eqb_spec (Js.Map.size (V1.functions v0))
              (Js.Map.size (V1.functions v1))) as [Hsz|Hsz]; cbn [negb].
  - rewrite forallb_forall. split.
    + intros Hall. split; [done|]. intros name body Hin.
      specialize (Hall _ Hin). cbn in Hall.
      destruct (Js.Map.get name (V1.functions v1)) as [other|]; [|done].
      exists other. split; [done|]. by apply equalBodyFrom_prefix in Hall.
    + intros [_ Hall] [name body] Hin.
      destruct (Hall _ _ Hin) as (other & -> & Hp).
      by apply equalBodyFrom_prefix.
  - split; [done|]. by intros [? _].
Qed.

Lemma equalVisitors_same_functions v0 v1 :
  Js.Map.wf (V1.functions v0) -> Js.Map.wf (V1.functions v1) ->
  (forall name, Js.Map.get name (V1.functions v0)
                = Js.Map.get name (V1.functions v1)) ->
  V1.equalVisitors v0 v1 = true.
Proof.
  intros Hwf0 Hwf1 Hsame. apply equalVisitors_true_iff. split.
  - unfold Js.Map.size.
    rewrite <- (length_fmap fst (V1.functions v0)), <- (length_fmap fst (V1.functions v1)).
    apply Permutation_length, NoDup_Permutation; [done|done|].
    intros name. rewrite !list_elem_of_In.
    change (In name (Js.Map.keys (V1.functions v0))
            <-> In name (Js.Map.keys (V1.functions v1))).
    by rewrite <- !map_get_Some_keys, Hsame.
  - intros name body Hin. exists body. split; [|done].
    rewrite <- Hsame. by apply map_In_get.
Qed.

(** C3 (the differ), at an input where the code departs from it.  The
    backup has the stub [G.visitA] with an empty body, the regenerated
    file has it with the generated one-line body: the bodies differ in
    length, and [equalVisitors] answers [true], since it only walks the
    lines of the first body. *)
Theorem equalVisitors_accepts_longer_body :
  V1.parseVisitorData
    (Js.join [Some "G.visitA = function(ctx) {"; Some "};"]) V1.emptyVisitor
  = Return {| V1.lines := ["G.visitA = function(ctx) {"; "};"];
              V1.functions := [("G.visitA", [])] |}
  /\ V1.parseVisitorData
       (Js.join [Some "G.visitA = function(ctx) {";
                 Some "  return this.visitChildren(ctx);"; Some "};"])
       V1.emptyVisitor
     = Return {| V1.lines := ["G.visitA = function(ctx) {";
                              "  return this.visitChildren(ctx);"; "};"];
                 V1.functions :=
                   [("G.visitA", ["  return this.visitChildren(ctx);"])] |}
  /\ V1.equalVisitors
       {| V1.lines := ["G.visitA = function(ctx) {"; "};"];
          V1.functions := [("G.visitA", [])] |}
       {| V1.lines := ["G.visitA = function(ctx) {";
                       "  return this.visitChildren(ctx);"; "};"];
          V1.functions :=
            [("G.visitA", ["  return this.visitChildren(ctx);"])] |}
     = true.
Proof. repeat split; vm_compute; reflexivity. Qed.

(** ** The short circuit of [mergeAndGenerateIfDifferent] *)

Lemma V1_mergeAndGenerate_equal visitorFile oldVisitor visitor mergedVisitor w :
  V1.equalVisitors oldVisitor visitor = true ->
  V1.mergeAndGenerateIfDifferent visitorFile oldVisitor visitor mergedVisitor w
  = (Return mergedVisitor,
     {| Node.files := Node.files w; Node.writable := Node.writable w;
        Node.journal :=
          Node.journal w ++
          [Node.ConsoleLog
             "No difference between old visitor and new visitor. Skipping merge..."] |}).
Proof. intros Hequal. unfold V1.mergeAndGenerateIfDifferent. by rewrite Hequal. Qed.

Lemma V2_mergeAndGenerate_equal visitorFile oldVisitor visitor mergedVisitor w :
  V2.equalVisitors oldVisitor visitor = true ->
  V2.mergeAndGenerateIfDifferent visitorFile oldVisitor visitor mergedVisitor w
  = (Return mergedVisitor,
     {| Node.files := Node.files w; Node.writable := Node.writable w;
        Node.journal :=
          Node.journal w ++
          [Node.ConsoleLog
             "No difference between old visitor and new visitor. Skipping merge..."] |}).
Proof. intros Hequal. unfold V2.mergeAndGenerateIfDifferent. by rewrite Hequal. Qed.

(** C8 (short circuit).  When the differ answers [true], the call ends
    without a failure, hands back [mergedVisitor] as it received it,
    leaves every file as it was and adds one console line, and no write,
    to the journal.  This holds in both scripts, each with its own
    differ. *)
Theorem equal_visitors_skip_merge (visitorFile : string) (w : Node.World) :
  (forall oldVisitor visitor mergedVisitor,
     V1.equalVisitors oldVisitor visitor = true ->
     V1.mergeAndGenerateIfDifferent visitorFile oldVisitor visitor
       mergedVisitor w
     = (Return mergedVisitor,
        {| Node.files := Node.files w; Node.writable := Node.writable w;
           Node.journal :=
             Node.journal w ++
             [Node.ConsoleLog
                "No difference between old visitor and new visitor. Skipping merge..."] |}))
  /\ (forall oldVisitor visitor mergedVisitor,
        V2.equalVisitors oldVisitor visitor = true ->
        V2.mergeAndGenerateIfDifferent visitorFile oldVisitor visitor
          mergedVisitor w
        = (Return mergedVisitor,
           {| Node.files := Node.files w; Node.writable := Node.writable w;
              Node.journal :=
                Node.journal w ++
                [Node.ConsoleLog
                   "No difference between old visitor and new visitor. Skipping merge..."] |})).
Proof.
  split; intros oldVisitor visitor mergedVisitor Hequal.
  - by apply V1_mergeAndGenerate_equal.
  - by apply V2_mergeAndGenerate_equal.
Qed.

Lemma equal_visitors_skip_merge_witness :
  V1.mergeAndGenerateIfDifferent "GVisitor.js"
    {| V1.lines := ["G.visitA = function(ctx) {"; "  return 1;"; "};"];
       V1.functions := [("G.visitA", ["  return 1;"])] |}
    {| V1.lines := ["G.visitA = function(ctx) {"; "  return 1;"; "};"; ""];
       V1.functions := [("G.visitA", ["  return 1;"])] |}
    V1.emptyMergedVisitor
    {| Node.files := ∅; Node.writable := fun _ => true; Node.journal := [] |}
  = (Return V1.emptyMergedVisitor,
     {| Node.files := ∅; Node.writable := fun _ => true;
        Node.journal :=
          [Node.ConsoleLog
             "No difference between old visitor and new visitor. Skipping merge..."] |}).
Proof.
  refine (proj1 (equal_visitors_skip_merge "GVisitor.js"
    {| Node.files := ∅; Node.writable := fun _ => true; Node.journal := [] |})
    {| V1.lines := ["G.visitA = function(ctx) {"; "  return 1;"; "};"];
       V1.functions := [("G.visitA", ["  return 1;"])] |}
    {| V1.lines := ["G.visitA = function(ctx) {"; "  return 1;"; "};"; ""];
       V1.functions := [("G.visitA", ["  return 1;"])] |}
    V1.emptyMergedVisitor _).
  reflexivity.
Defined.

(** ** Regeneration that changes no stub *)

Lemma V1_parseVisitor_read file data w :
  Node.files w !! file = Some data ->
  V1.parseVisitor file V1.emptyVisitor w
  = (V1.parseVisitorData data V1.emptyVisitor, w).
Proof.
  intros Hfile. unfold V1.parseVisitor, Node.readFile, Node.lift.
  unfold mbind, Node.io_bind. by rewrite Hfile.
Qed.

Lemma V1_parseVisitorData_wf data visitor :
  V1.parseVisitorData data V1.emptyVisitor = Return visitor ->
  Js.Map.wf (V1.functions visitor).
Proof.
  rewrite V1_parseVisitorData_unfold.
  destruct (Shared.populateVisitorFunctions _ _) as [f|e] eqn:E; [|done].
  intros [= <-]. cbn.
  by apply (populateVisitorFunctions_wf _ _ _ E), map_wf_empty.
Qed.

(** C9 (no-op regeneration).  When the backup and the regenerated file
    parse to models with the same stub names and the same bodies, the
    differ answers [true]; the merge step then ends without a failure and
    leaves every file as it was, and so does a second run after it: the
    visitor file after two runs is the visitor file after one. *)
Theorem noop_regeneration_idempotent (visitorFile : string) (w : Node.World)
    (oldData newData : string) (oldVisitor visitor : V1.Visitor) :
  Node.files w !! (visitorFile +:+ ".old") = Some oldData ->
  Node.files w !! visitorFile = Some newData ->
  V1.parseVisitorData oldData V1.emptyVisitor = Return oldVisitor ->
  V1.parseVisitorData newData V1.emptyVisitor = Return visitor ->
  (forall name, Js.Map.get name (V1.functions oldVisitor)
                = Js.Map.get name (V1.functions visitor)) ->
  V1.equalVisitors oldVisitor visitor = true
  /\ exists w1 w2,
       V1.mergeOldVisitorContentsIfDifferent visitorFile w
       = (Return V1.emptyMergedVisitor, w1)
       /\ V1.mergeOldVisitorContentsIfDifferent visitorFile w1
          = (Return V1.emptyMergedVisitor, w2)
       /\ Node.files w1 = Node.files w
       /\ Node.files w2 = Node.files w1
       /\ Node.files w2 !! visitorFile = Some newData.
Proof.
  intros Hold Hnew Hpold Hpnew Hsame.
  assert (Hequal : V1.equalVisitors oldVisitor visitor = true).
  { apply equalVisitors_same_functions; [| |done].
    - by apply (V1_parseVisitorData_wf oldData).
    - by apply (V1_parseVisitorData_wf newData). }
  split; [done|].
  assert (Hrun : forall w0,
    Node.files w0 = Node.files w ->
    exists w', V1.mergeOldVisitorContentsIfDifferent visitorFile w0
               = (Return V1.emptyMergedVisitor, w')
               /\ Node.files w' = Node.files w0).
  { intros w0 Hfiles. unfold V1.mergeOldVisitorContentsIfDifferent.
    unfold mbind at 1, Node.io_bind at 1.
    rewrite (V1_parseVisitor_read _ oldData) by (by rewrite Hfiles).
    rewrite Hpold. unfold mbind at 1, Node.io_bind at 1.
    rewrite (V1_parseVisitor_read _ newData) by (by rewrite Hfiles).
    rewrite Hpnew.
    rewrite (V1_mergeAndGenerate_equal _ _ _ _ _ Hequal).
    eexists. split; [done|done]. }
  destruct (Hrun w eq_refl) as (w1 & Hrun1 & Hfiles1).
  destruct (Hrun w1 Hfiles1) as (w2 & Hrun2 & Hfiles2).
  exists w1, w2. repeat (split; [done|]).
  by rewrite Hfiles2, Hfiles1.
Qed.

(** ** The theorems at concrete inputs *)

Lemma mergeFunctions_preserves_old_body_witness :
  Js.Map.get "visitExpr"
    (Shared.mergeFunctions
       [("visitExpr", ["return 1;"]); ("visitStmt", ["return 2;"])]
       [("visitExpr", ["return null;"]); ("visitStmt", ["return null;"]);
        ("visitBlock", ["return null;"])]
       Js.Map.empty)
  = Some ["return 1;"].
Proof.
  apply (mergeFunctions_preserves_old_body
    [("visitExpr", ["return 1;"]); ("visitStmt", ["return 2;"])]
    [("visitExpr", ["return null;"]); ("visitStmt", ["return null;"]);
     ("visitBlock", ["return null;"])]
    Js.Map.empty "visitExpr" ["return 1;"] ["return null;"]);
    reflexivity.
Defined.

Lemma mergeFunctions_adopts_new_structure_witness :
  Js.Map.get "visitBlock"
    (Shared.mergeFunctions
       [("visitExpr", ["return 1;"]); ("visitGone", ["return 2;"])]
       [("visitExpr", ["return null;"]); ("visitBlock", ["return null;"])]
       Js.Map.empty)
  = Some ["return null;"].
Proof.
  refine (proj1 (mergeFunctions_adopts_new_structure
    [("visitExpr", ["return 1;"]); ("visitGone", ["return 2;"])]
    [("visitExpr", ["return null;"]); ("visitBlock", ["return null;"])]
    Js.Map.empty "visitBlock" _) ["return null;"] _ _).
  - apply (bool_decide_unpack _). vm_compute. reflexivity.
  - reflexivity.
  - reflexivity.
Defined.

Lemma mergeImports_monotone_witness :
  In "var b = require('b');"
    (V2.mergedImports
       (V2.mergeImports
          {| V2.lines := []; V2.functions := [];
             V2.imports := ["var a = require('a');"; "var b = require('b');"] |}
          {| V2.lines := []; V2.functions := [];
             V2.imports := ["var a = require('a');"] |}
          V2.emptyMergedVisitor)).
Proof.
  refine (proj1 (proj2 (proj2 (mergeImports_monotone
    {| V2.lines := []; V2.functions := [];
       V2.imports := ["var a = require('a');"; "var b = require('b');"] |}
    {| V2.lines := []; V2.functions := [];
       V2.imports := ["var a = require('a');"] |}
    V2.emptyMergedVisitor))) "var b = require('b');" _).
  simpl. right. left. reflexivity.
Defined.

Lemma stub_name_derivation_witness :
  Shared.functionNameOf "  G.prototype.visitA = function(ctx) {"
  = "  G.prototype.visitA"
  /\ Shared.functionNameOf "  return function(ctx) {" = EmptyString.
Proof.
  split.
  - refine (proj1 (proj2 stub_name_derivation)
      "  G.prototype.visitA" " "%char " function(ctx) {" _).
    reflexivity.
  - refine (proj1 (proj2 (proj2 stub_name_derivation))
      "  return function(ctx) {" _).
    reflexivity.
Defined.

Lemma extraction_fails_exactly_on_unclosed_stub_witness :
  V1.parseVisitorData "G.visitA = function(ctx) {" V1.emptyVisitor
  = Raise TypeError
  /\ V1.parseVisitorData "// nothing to visit" V1.emptyVisitor
     = Return {| V1.lines := ["// nothing to visit"];
                 V1.functions := Js.Map.empty |}.
Proof.
  split.
  - refine (proj1 (proj1
      (extraction_fails_exactly_on_unclosed_stub "G.visitA = function(ctx) {")
      _)).
    exists 0. split.
    + exists "G.visitA = function(ctx) {". split; reflexivity.
    + intros k ((Hpos & Hlen) & Hdepth & _).
      simpl in Hlen. assert (k = 1) as -> by lia.
      vm_compute in Hdepth. apply Hdepth. reflexivity.
  - refine (proj1 (proj1 (proj2 (proj2
      (extraction_fails_exactly_on_unclosed_stub "// nothing to visit"))) _)).
    reflexivity.
Defined.

Lemma noop_regeneration_idempotent_witness :
  V1.equalVisitors
    {| V1.lines := ["// edited"; "G.visitA = function(ctx) {"; "  return 1;";
                    "};"];
       V1.functions := [("G.visitA", ["  return 1;"])] |}
    {| V1.lines := ["// generated"; "G.visitA = function(ctx) {";
                    "  return 1;"; "};"];
       V1.functions := [("G.visitA", ["  return 1;"])] |}
  = true
  /\ exists w1 w2,
       V1.mergeOldVisitorContentsIfDifferent "GVisitor.js"
         {| Node.files :=
              {[ "GVisitor.js.old" :=
                   Js.join [Some "// edited"; Some "G.visitA = function(ctx) {";
                            Some "  return 1;"; Some "};"];
                 "GVisitor.js" :=
                   Js.join [Some "// generated";
                            Some "G.visitA = function(ctx) {";
                            Some "  return 1;"; Some "};"] ]};
            Node.writable := fun _ => true; Node.journal := [] |}
       = (Return V1.emptyMergedVisitor, w1)
       /\ V1.mergeOldVisitorContentsIfDifferent "GVisitor.js" w1
          = (Return V1.emptyMergedVisitor, w2)
       /\ Node.files w1
          = {[ "GVisitor.js.old" :=
                 Js.join [Some "// edited"; Some "G.visitA = function(ctx) {";
                          Some "  return 1;"; Some "};"];
               "GVisitor.js" :=
                 Js.join [Some "// generated";
                          Some "G.visitA = function(ctx) {";
                          Some "  return 1;"; Some "};"] ]}
       /\ Node.files w2 = Node.files w1
       /\ Node.files w2 !! "GVisitor.js"
          = Some (Js.join [Some "// generated";
                           Some "G.visitA = function(ctx) {";
                           Some "  return 1;"; Some "};"]).
Proof.
  refine (noop_regeneration_idempotent "GVisitor.js"
    {| Node.files :=
         {[ "GVisitor.js.old" :=
              Js.join [Some "// edited"; Some "G.visitA = function(ctx) {";
                       Some "  return 1;"; Some "};"];
            "GVisitor.js" :=
              Js.join [Some "// generated";
                       Some "G.visitA = function(ctx) {";
                       Some "  return 1;"; Some "};"] ]};
       Node.writable := fun _ => true; Node.journal := [] |}
    (Js.join [Some "// edited"; Some "G.visitA = function(ctx) {";
              Some "  return 1;"; Some "};"])
    (Js.join [Some "// generated"; Some "G.visitA = function(ctx) {";
              Some "  return 1;"; Some "};"])
    {| V1.lines := ["// edited"; "G.visitA = function(ctx) {"; "  return 1;";
                    "};"];
       V1.functions := [("G.visitA", ["  return 1;"])] |}
    {| V1.lines := ["// generated"; "G.visitA = function(ctx) {";
                    "  return 1;"; "};"];
       V1.functions := [("G.visitA", ["  return 1;"])] |}
    _ _ _ _ _).
  - vm_compute. reflexivity.
  - vm_compute. reflexivity.
  - vm_compute. reflexivity.
  - vm_compute. reflexivity.
  - intros name. reflexivity.
Defined.

(** ** Lines and text: [split] and [join] *)

Lemma oneLine_nil : oneLine EmptyString.
Proof. reflexivity. Qed.

Lemma oneLine_cons c line :
  oneLine (String c line) <-> c <> Js.newline /\ oneLine line.
Proof.
  unfold oneLine, Js.includes. rewrite index_char_cons.
  destruct (ascii_dec Js.newline c) as [<-|Hne].
  - split; [done|]. by intros [? _].
  - destruct (String.index 0 (String Js.newline EmptyString) line).
    + split; [done|]. by intros [_ ?].
    + split; [|done]. intros _. split; [congruence|done].
Qed.

Lemma split_not_nil s : Js.split s <> [].
Proof.
  destruct s as [|c s]; [done|]. cbn [Js.split].
  destruct (Ascii.eqb c Js.newline); [done|]. by destruct (Js.split s).
Qed.

Lemma split_oneLine s : Forall oneLine (Js.split s).
Proof.
  induction s as [|c s IH]; cbn [Js.split].
  - constructor; [apply oneLine_nil|constructor].
  - destruct (Ascii.eqb_spec c Js.newline) as [->|Hne].
    + constructor; [apply oneLine_nil|done].
    + destruct (Js.split s) as [|l ls]; [constructor; [|constructor]|].
      * by apply oneLine_cons.
      * apply Forall_cons in IH as [Hl Hls].
        constructor; [by apply oneLine_cons|done].
Qed.

Lemma join_cons_cons e e' rest :
  Js.join (e :: e' :: rest)
  = Js.element_text e +:+ String Js.newline (Js.join (e' :: rest)).
Proof. reflexivity. Qed.

Lemma join_split s : Js.join (Some <$> Js.split s) = s.
Proof.
  induction s as [|c s IH]; [done|]. cbn [Js.split].
  pose proof (split_not_nil s) as Hne.
  destruct (Ascii.eqb_spec c Js.newline) as [->|Hc].
  - destruct (Js.split s) as [|l ls]; [done|].
    rewrite !fmap_cons, join_cons_cons. rewrite fmap_cons in IH.
    by rewrite IH.
  - destruct (Js.split s) as [|l ls]; [done|].
    rewrite fmap_cons in IH. destruct ls as [|l' ls].
    + cbn in IH. cbn. by rewrite IH.
    + rewrite !fmap_cons in *. rewrite join_cons_cons in *.
      cbn [Js.element_text] in *. rewrite append_cons. by rewrite IH.
Qed.

Lemma split_oneLine_then line rest :
  oneLine line ->
  Js.split (line +:+ String Js.newline rest) = line :: Js.split rest.
Proof.
  induction line as [|c line IH]; intros Hone.
  - rewrite append_nil_l. cbn [Js.split]. by rewrite Ascii.eqb_refl.
  - apply oneLine_cons in Hone as [Hc Hone].
    rewrite append_cons. cbn [Js.split].
    destruct (Ascii.eqb_spec c Js.newline) as [?|_]; [done|].
    by rewrite IH.
Qed.

Lemma split_oneLine_alone line : oneLine line -> Js.split line = [line].
Proof.
  induction line as [|c line IH]; intros Hone; [done|].
  apply oneLine_cons in Hone as [Hc Hone]. cbn [Js.split].
  destruct (Ascii.eqb_spec c Js.newline) as [?|_]; [done|].
  by rewrite IH.
Qed.

Lemma split_join lines :
  lines <> [] -> Forall oneLine lines ->
  Js.split (Js.join (Some <$> lines)) = lines.
Proof.
  induction lines as [|line lines IH]; [done|]. intros _ Hall.
  apply Forall_cons in Hall as [Hline Hall].
  destruct lines as [|line' lines].
  - cbn. by apply split_oneLine_alone.
  - rewrite !fmap_cons, join_cons_cons. cbn [Js.element_text].
    rewrite split_oneLine_then by done. f_equal.
    rewrite <- fmap_cons. by apply IH.
Qed.

(** X1.  The text joined for the visitor file and the lines split from a
    file are inverse to each other: splitting any text and joining the
    lines gives the text back; and joining lines, none of which holds a
    line separator, and splitting the text gives the lines back.  Lines
    that come from a split are of that kind and there is at least one. *)
Theorem split_join_round_trip :
  (forall data, Js.join (Some <$> Js.split data) = data)
  /\ (forall data, Js.split data <> [] /\ Forall oneLine (Js.split data))
  /\ (forall lines,
        lines <> [] -> Forall oneLine lines ->
        V1.lines (V1.parseVisitorLines (Js.join (Some <$> lines))
                    V1.emptyVisitor)
        = lines).
Proof.
  split; [apply join_split|]. split.
  - intros data. split; [apply split_not_nil|apply split_oneLine].
  - intros lines Hne Hall. cbn. by apply split_join.
Qed.

Lemma split_join_round_trip_witness :
  V1.lines (V1.parseVisitorLines
              (Js.join (Some <$> ["// header"; ""; "G.visitA = function(ctx) {"]))
              V1.emptyVisitor)
  = ["// header"; ""; "G.visitA = function(ctx) {"].
Proof.
  refine (proj2 (proj2 split_join_round_trip)
    ["// header"; ""; "G.visitA = function(ctx) {"] _ _).
  - done.
  - repeat constructor.
Defined.

(** ** Extraction of a well-formed stub *)

Lemma depthOf_app a b :
  Scan.depthOf (a ++ b) = (Scan.depthOf a + Scan.depthOf b)%Z.
Proof.
  induction a as [|x a IH].
  - change (Scan.depthOf []) with 0%Z. rewrite app_nil_l. lia.
  - cbn [app]. rewrite !depthOf_cons, IH. lia.
Qed.

Lemma closesAfter_enclosed
    (pre : list string) (decl : string) (body : list string)
    (closing : string) (post : list string) :
  Stub.encloses decl body closing ->
  Scan.closesAfter (drop (length pre) (pre ++ decl :: body ++ closing :: post))
    (length body + 2).
Proof.
  intros [Hpos Hclose]. rewrite drop_app_length. split; [|split].
  - cbn [length]. rewrite length_app. cbn [length]. lia.
  - replace (length body + 2) with (S (length body + 1)) by lia.
    cbn [firstn]. rewrite depthOf_cons.
    replace (body ++ closing :: post) with ((body ++ [closing]) ++ post)
      by (by rewrite <- app_assoc).
    rewrite take_app_length' by (rewrite length_app; cbn; lia).
    rewrite depthOf_app, depthOf_cons.
    change (Scan.depthOf []) with 0%Z. lia.
  - intros [|j] Hj; [lia|]. cbn [firstn]. rewrite depthOf_cons.
    rewrite take_app_le by lia. apply Hpos. lia.
Qed.

Lemma getFunctionBody_enclosed
    (pre : list string) (decl : string) (body : list string)
    (closing : string) (post : list string) :
  Stub.encloses decl body closing ->
  Shared.getFunctionBody (pre ++ decl :: body ++ closing :: post) (length pre)
  = Return body.
Proof.
  intros Henc.
  rewrite (getFunctionBody_closes _ _ (length body + 2))
    by (by apply closesAfter_enclosed).
  f_equal. replace (length body + 2 - 2) with (length body) by lia.
  replace (S (length pre)) with (length pre + 1) by lia.
  rewrite drop_app_add' by done. cbn [skipn].
  by rewrite drop_0, take_app_length.
Qed.

(** X2.  A stub whose body keeps the depth positive and whose closing
    line ends the scan is extracted exactly, wherever it stands in the
    file and whatever follows it: the scan ends with the closing line and
    the body comes back line for line. *)
Theorem getFunctionBody_recovers_enclosed_body
    (pre : list string) (decl : string) (body : list string)
    (closing : string) (post : list string) :
  Stub.encloses decl body closing ->
  Shared.getFunctionBody (pre ++ decl :: body ++ closing :: post) (length pre)
  = Return body
  /\ Scan.closesAfter
       (drop (length pre) (pre ++ decl :: body ++ closing :: post))
       (length body + 2).
Proof.
  intros Henc. split.
  - by apply getFunctionBody_enclosed.
  - by apply closesAfter_enclosed.
Qed.

Lemma getFunctionBody_recovers_enclosed_body_witness :
  Shared.getFunctionBody
    (["// header"] ++
     "G.visitA = function(ctx) {"
     :: ["  if (ctx.x) {"; "    return 1;"; "  } else {"; "    return 2;"; "  }"]
     ++ "};" :: ["tail {"])
    (length ["// header"])
  = Return ["  if (ctx.x) {"; "    return 1;"; "  } else {"; "    return 2;";
            "  }"].
Proof.
  refine (proj1 (getFunctionBody_recovers_enclosed_body ["// header"]
    "G.visitA = function(ctx) {"
    ["  if (ctx.x) {"; "    return 1;"; "  } else {"; "    return 2;"; "  }"]
    "};" ["tail {"] _)).
  split.
  - intros j Hj. simpl in Hj.
    assert (j = 0 \/ j = 1 \/ j = 2 \/ j = 3 \/ j = 4 \/ j = 5)
      as [-> | [-> | [-> | [-> | [-> | ->] ] ] ] ] by lia; by vm_compute.
  - by vm_compute.
Defined.

(** ** The stub map of a parsed file *)

Lemma eachOfSeries_populate_get_other lines coll index functions functions' name :
  Shared.eachOfSeries coll index (Shared.populateLine lines) functions
  = Return functions' ->
  (forall line, In line coll -> Shared.declaresStub line = true ->
                Shared.functionNameOf line <> name) ->
  Js.Map.get name functions' = Js.Map.get name functions.
Proof.
  revert index functions.
  induction coll as [|line coll IH]; intros index functions; cbn [Shared.eachOfSeries].
  - by intros [= <-].
  - destruct (Shared.populateLine lines line index functions) as [f1|e] eqn:E;
      [|done].
    cbn. intros Hrest Hother.
    rewrite (IH _ _ Hrest) by (intros l Hl; apply Hother; by right).
    unfold Shared.populateLine in E.
    destruct (Js.includes line "function(ctx)") eqn:Hd.
    + destruct (Shared.getFunctionBody lines index) as [body|?]; [|done].
      injection E as <-. apply map_get_set_ne.
      apply (Hother line); [by left|done].
    + by injection E as <-.
Qed.

Lemma eachOfSeries_populate_last lines coll start functions functions' index line :
  coll = drop start lines ->
  Shared.eachOfSeries coll start (Shared.populateLine lines) functions
  = Return functions' ->
  start <= index ->
  lines !! index = Some line ->
  Shared.declaresStub line = true ->
  (forall j later, index < j -> lines !! j = Some later ->
                   Shared.declaresStub later = true ->
                   Shared.functionNameOf later <> Shared.functionNameOf line) ->
  exists body,
    Shared.getFunctionBody lines index = Return body
    /\ Js.Map.get (Shared.functionNameOf line) functions' = Some body.
Proof.
  revert start functions.
  induction coll as [|head coll IH]; intros start functions Hcoll Hrun Hle Hline Hdecl Hlast.
  - apply lookup_lt_Some in Hline.
    assert (length (drop start lines) = 0) as Hz by (by rewrite <- Hcoll).
    rewrite length_drop in Hz. lia.
  - symmetry in Hcoll. apply drop_cons_inv in Hcoll as [Hhead Hrest].
    cbn [Shared.eachOfSeries] in Hrun.
    destruct (Shared.populateLine lines head start functions) as [f1|e] eqn:E;
      [|done].
    cbn in Hrun. destruct (decide (start = index)) as [->|Hne].
    + assert (head = line) as -> by congruence.
      rewrite populateLine_stub in E by done.
      destruct (Shared.getFunctionBody lines index) as [body|?]; [|done].
      injection E as <-. exists body. split; [done|].
      rewrite (eachOfSeries_populate_get_other _ _ _ _ _ _ Hrun).
      * apply map_get_set_eq.
      * intros later Hin Hd.
        apply list_elem_of_In, list_elem_of_lookup in Hin as [i Hi].
        rewrite <- Hrest, lookup_drop in Hi.
        apply (Hlast (S index + i)); [lia|done|done].
    + apply (IH (S start) f1); [done|done|lia|done|done|done].
Qed.

(** X3.  In the stub map of a parsed file, a name holds the body of the
    last line that declares it: a stub declaration that no later
    declaration repeats is filed with the body extracted at its own
    index. *)
Theorem populateVisitorFunctions_last_declaration_wins
    (lines : list string) (functions : Js.Map.t (list string))
    (index : nat) (line : string) :
  Shared.populateVisitorFunctions lines Js.Map.empty = Return functions ->
  lines !! index = Some line ->
  Shared.declaresStub line = true ->
  (forall j later, index < j -> lines !! j = Some later ->
                   Shared.declaresStub later = true ->
                   Shared.functionNameOf later <> Shared.functionNameOf line) ->
  exists body,
    Shared.getFunctionBody lines index = Return body
    /\ Js.Map.get (Shared.functionNameOf line) functions = Some body.
Proof.
  intros Hrun Hline Hdecl Hlast.
  apply (eachOfSeries_populate_last lines lines 0 Js.Map.empty functions index line);
    [done|done|lia|done|done|done].
Qed.

Lemma populateVisitorFunctions_last_declaration_wins_witness :
  exists body,
    Shared.getFunctionBody
      ["a = function(ctx) {"; "  one;"; "};"; "a = function(ctx) {"; "  two;";
       "};"] 3
    = Return body
    /\ Js.Map.get (Shared.functionNameOf "a = function(ctx) {")
         [("a", ["  two;"])]
       = Some body.
Proof.
  refine (populateVisitorFunctions_last_declaration_wins
    ["a = function(ctx) {"; "  one;"; "};"; "a = function(ctx) {"; "  two;";
     "};"]
    [("a", ["  two;"])] 3 "a = function(ctx) {" _ _ _ _).
  - vm_compute. reflexivity.
  - reflexivity.
  - reflexivity.
  - intros j later Hj Hlater Hdecl.
    destruct j as [|[|[|[|[|[|j]]]]]]; try lia; simpl in Hlater;
      try discriminate; injection Hlater as <-; vm_compute in Hdecl;
      discriminate.
Defined.

(** ** The merged stub map in closed form *)

Lemma map_set_fresh {V} k (v : V) m :
  ~ In k (Js.Map.keys m) -> Js.Map.set k v m = m ++ [(k, v)].
Proof.
  induction m as [|[k0 v0] m IH]; intros Hk; [done|].
  cbn [Js.Map.set]. destruct (String.eqb_spec k0 k) as [->|Hne].
  - destruct Hk. by left.
  - cbn [app]. rewrite IH; [done|]. intros Hin. apply Hk. by right.
Qed.

Lemma mergeEntry_resolve oldFunctions merged entry :
  Shared.mergeEntry oldFunctions merged entry
  = Js.Map.set entry.1 (default entry.2 (Js.Map.get entry.1 oldFunctions)) merged.
Proof.
  destruct entry as [name body]. unfold Shared.mergeEntry, Js.Map.has. cbn.
  by destruct (Js.Map.get name oldFunctions).
Qed.

Lemma fold_mergeEntry_fresh oldFunctions entries merged :
  NoDup (Js.Map.keys merged ++ Js.Map.keys entries) ->
  fold_left (Shared.mergeEntry oldFunctions) entries merged
  = merged ++ ((fun entry =>
                  (entry.1, default entry.2 (Js.Map.get entry.1 oldFunctions)))
               <$> entries).
Proof.
  revert merged. induction entries as [|entry entries IH]; intros merged Hnd.
  - by rewrite app_nil_r.
  - cbn [fold_left]. rewrite mergeEntry_resolve.
    unfold Js.Map.keys in *. rewrite fmap_cons in Hnd.
    rewrite map_set_fresh.
    + rewrite IH.
      * by rewrite <- app_assoc.
      * unfold Js.Map.keys. rewrite fmap_app. cbn. by rewrite <- app_assoc.
    + intros Hin%list_elem_of_In.
      apply NoDup_app in Hnd as (_ & Hdisj & _).
      apply (Hdisj _ Hin). by left.
Qed.

Lemma keys_resolved (oldFunctions functions : Js.Map.t (list string)) :
  Js.Map.keys ((fun entry : string * list string =>
                  (entry.1, default entry.2 (Js.Map.get entry.1 oldFunctions)))
               <$> functions)
  = Js.Map.keys functions.
Proof.
  unfold Js.Map.keys. rewrite <- list_fmap_compose. by apply list_fmap_ext.
Qed.

Lemma mergeFunctions_resolved (oldFunctions functions : Js.Map.t (list string)) :
  Js.Map.wf functions ->
  Shared.mergeFunctions oldFunctions functions Js.Map.empty
  = (fun entry => (entry.1, default entry.2 (Js.Map.get entry.1 oldFunctions)))
    <$> functions
  /\ Js.Map.wf (Shared.mergeFunctions oldFunctions functions Js.Map.empty).
Proof.
  intros Hwf.
  assert (Heq : Shared.mergeFunctions oldFunctions functions Js.Map.empty
                = (fun entry =>
                     (entry.1, default entry.2 (Js.Map.get entry.1 oldFunctions)))
                  <$> functions).
  { unfold Shared.mergeFunctions, Js.Map.entries.
    by rewrite fold_mergeEntry_fresh. }
  rewrite Heq. split; [done|]. unfold Js.Map.wf. by rewrite keys_resolved.
Qed.

(** X4.  On a fresh merged map, the merged stubs are the new model's
    stubs, one for one and in the new model's order, each with the old
    body when the old model has its name and with its own body
    otherwise. *)
Theorem mergeFunctions_closed_form
    (oldFunctions functions : Js.Map.t (list string)) :
  Js.Map.wf functions ->
  Shared.mergeFunctions oldFunctions functions Js.Map.empty
  = (fun entry => (entry.1, default entry.2 (Js.Map.get entry.1 oldFunctions)))
    <$> functions
  /\ Js.Map.keys (Shared.mergeFunctions oldFunctions functions Js.Map.empty)
     = Js.Map.keys functions
  /\ Js.Map.wf (Shared.mergeFunctions oldFunctions functions Js.Map.empty).
Proof.
  intros Hwf.
  destruct (mergeFunctions_resolved oldFunctions functions Hwf) as [Heq Hwf'].
  split; [done|]. split; [|done]. rewrite Heq. apply keys_resolved.
Qed.

Lemma mergeFunctions_closed_form_witness :
  Js.Map.keys
    (Shared.mergeFunctions
       [("visitStmt", ["return 2;"]); ("visitExpr", ["return 1;"])]
       [("visitExpr", ["return null;"]); ("visitStmt", ["return null;"]);
        ("visitBlock", ["return null;"])]
       Js.Map.empty)
  = ["visitExpr"; "visitStmt"; "visitBlock"].
Proof.
  refine (proj1 (proj2 (mergeFunctions_closed_form
    [("visitStmt", ["return 2;"]); ("visitExpr", ["return 1;"])]
    [("visitExpr", ["return null;"]); ("visitStmt", ["return null;"]);
     ("visitBlock", ["return null;"])] _))).
  apply (bool_decide_unpack _). vm_compute. reflexivity.
Defined.

(** X5.  The resolver is idempotent: merging a model with itself gives
    the model back, and merging the merged stubs once more against the
    same old model changes nothing. *)
Theorem mergeFunctions_idempotent
    (oldFunctions functions : Js.Map.t (list string)) :
  Js.Map.wf functions ->
  Shared.mergeFunctions functions functions Js.Map.empty = functions
  /\ Shared.mergeFunctions oldFunctions
       (Shared.mergeFunctions oldFunctions functions Js.Map.empty)
       Js.Map.empty
     = Shared.mergeFunctions oldFunctions functions Js.Map.empty.
Proof.
  intros Hwf.
  destruct (mergeFunctions_resolved oldFunctions functions Hwf) as [Heq Hwf'].
  split.
  - rewrite (proj1 (mergeFunctions_resolved functions functions Hwf)).
    rewrite <- (list_fmap_id functions) at 2.
    apply Forall_fmap_ext_1, Forall_forall.
    intros [name body] Hin%list_elem_of_In. cbn.
    by rewrite (map_In_get _ _ _ Hwf Hin).
  - rewrite (proj1 (mergeFunctions_resolved oldFunctions _ Hwf')).
    rewrite Heq, <- list_fmap_compose.
    apply Forall_fmap_ext_1, Forall_forall. intros [name body] _. cbn.
    by destruct (Js.Map.get name oldFunctions).
Qed.

Lemma mergeFunctions_idempotent_witness :
  Shared.mergeFunctions
    [("visitExpr", ["return 1;"])]
    (Shared.mergeFunctions
       [("visitExpr", ["return 1;"])]
       [("visitExpr", ["return null;"]); ("visitBlock", ["return null;"])]
       Js.Map.empty)
    Js.Map.empty
  = Shared.mergeFunctions
      [("visitExpr", ["return 1;"])]
      [("visitExpr", ["return null;"]); ("visitBlock", ["return null;"])]
      Js.Map.empty.
Proof.
  refine (proj2 (mergeFunctions_idempotent
    [("visitExpr", ["return 1;"])]
    [("visitExpr", ["return null;"]); ("visitBlock", ["return null;"])] _)).
  apply (bool_decide_unpack _). vm_compute. reflexivity.
Defined.

(** ** What the differs accept *)

(** X6.  The differ of [regenerateVisitor.js] never calls two models with
    different sets of stub names equal. *)
Theorem equalVisitors_same_stub_names (v0 v1 : V1.Visitor) (name : string) :
  Js.Map.wf (V1.functions v0) -> Js.Map.wf (V1.functions v1) ->
  V1.equalVisitors v0 v1 = true ->
  Js.Map.has name (V1.functions v0) = Js.Map.has name (V1.functions v1).
Proof.
  intros Hwf0 Hwf1 [Hsize Hall]%equalVisitors_true_iff.
  assert (Hsub : forall k, k ∈ Js.Map.keys (V1.functions v0) ->
                           k ∈ Js.Map.keys (V1.functions v1)).
  { intros k Hk%list_elem_of_In%map_get_Some_keys. destruct Hk as [body Hk].
    apply map_get_In in Hk. destruct (Hall _ _ Hk) as (other & Hother & _).
    apply list_elem_of_In, map_get_Some_keys. by eexists. }
  assert (Hperm : Js.Map.keys (V1.functions v0) ≡ₚ Js.Map.keys (V1.functions v1)).
  { apply submseteq_length_Permutation.
    - by apply NoDup_submseteq.
    - unfold Js.Map.keys. rewrite !length_fmap.
      unfold Js.Map.size in Hsize. lia. }
  assert (Hiff : is_Some (Js.Map.get name (V1.functions v0))
                 <-> is_Some (Js.Map.get name (V1.functions v1))).
  { rewrite !map_get_Some_keys, <- !list_elem_of_In. by rewrite Hperm. }
  unfold Js.Map.has.
  destruct (Js.Map.get name (V1.functions v0)),
           (Js.Map.get name (V1.functions v1)); try done.
  - destruct Hiff as [H _]. by destruct (H (mk_is_Some _ _ eq_refl)).
  - destruct Hiff as [_ H]. by destruct (H (mk_is_Some _ _ eq_refl)).
Qed.

Lemma equalVisitors_same_stub_names_witness :
  Js.Map.has "G.visitB"
    [("G.visitA", ["  return 1;"]); ("G.visitB", [])]
  = Js.Map.has "G.visitB"
      [("G.visitB", ["  return 2;"]); ("G.visitA", ["  return 1;"; "  // more"])].
Proof.
  refine (equalVisitors_same_stub_names
    {| V1.lines := [];
       V1.functions := [("G.visitA", ["  return 1;"]); ("G.visitB", [])] |}
    {| V1.lines := [];
       V1.functions :=
         [("G.visitB", ["  return 2;"]);
          ("G.visitA", ["  return 1;"; "  // more"])] |}
    "G.visitB" _ _ _).
  - apply (bool_decide_unpack _). vm_compute. reflexivity.
  - apply (bool_decide_unpack _). vm_compute. reflexivity.
  - vm_compute. reflexivity.
Defined.

(** X7.  The differ of the later script calls two models different as
    soon as the first has a line of two characters or more that does not
    start with a digit, whatever the second model is; even a model
    compared with itself. *)
Theorem V2_equalVisitors_rejects_ordinary_line (v0 v1 : V2.Visitor)
    (a b : ascii) (rest : string) :
  In (String a (String b rest)) (V2.lines v0) ->
  V2.arrayIndexOfKey a = None ->
  V2.equalVisitors v0 v1 = false.
Proof.
  intros Hin Hkey. unfold V2.equalVisitors.
  destruct (forallb _ (V2.lines v0)) eqn:Hall; [|done].
  rewrite forallb_forall in Hall. specialize (Hall _ Hin).
  cbn [V2.destructurePair V2.propertyOf] in Hall.
  by rewrite Hkey in Hall.
Qed.

Lemma V2_equalVisitors_rejects_ordinary_line_witness :
  V2.equalVisitors
    {| V2.lines := ["// Generated from G.g4"; ""]; V2.functions := [];
       V2.imports := [] |}
    {| V2.lines := ["// Generated from G.g4"; ""]; V2.functions := [];
       V2.imports := [] |}
  = false.
Proof.
  refine (V2_equalVisitors_rejects_ordinary_line
    {| V2.lines := ["// Generated from G.g4"; ""]; V2.functions := [];
       V2.imports := [] |}
    {| V2.lines := ["// Generated from G.g4"; ""]; V2.functions := [];
       V2.imports := [] |}
    "/"%char "/"%char " Generated from G.g4" _ _).
  - simpl. left. reflexivity.
  - reflexivity.
Defined.

(** ** The imports of a parsed file *)

(** X8.  The imports collected from a file, into a fresh set, are exactly
    its lines that contain [require(], each once; the lines and the
    stubs of the model are left as they were. *)
Theorem populateVisitorImports_collects_require_lines (visitor : V2.Visitor) :
  V2.imports visitor = Js.StrSet.empty ->
  NoDup (V2.imports (V2.populateVisitorImports visitor))
  /\ (forall line,
        In line (V2.imports (V2.populateVisitorImports visitor))
        <-> In line (V2.lines visitor) /\ Js.includes line "require(" = true)
  /\ V2.lines (V2.populateVisitorImports visitor) = V2.lines visitor
  /\ V2.functions (V2.populateVisitorImports visitor) = V2.functions visitor.
Proof.
  intros Hempty. unfold V2.populateVisitorImports.
  cbn [V2.imports V2.lines V2.functions]. rewrite Hempty.
  split; [apply addEach_NoDup, NoDup_nil_2|]. split; [|done].
  intros line. rewrite addEach_In, filter_In. unfold Js.StrSet.empty.
  simpl. tauto.
Qed.

Lemma populateVisitorImports_collects_require_lines_witness :
  NoDup
    (V2.imports
       (V2.populateVisitorImports
          {| V2.lines := ["var a = require('a');"; "x"; "var a = require('a');"];
             V2.functions := []; V2.imports := [] |})).
Proof.
  refine (proj1 (populateVisitorImports_collects_require_lines
    {| V2.lines := ["var a = require('a');"; "x"; "var a = require('a');"];
       V2.functions := []; V2.imports := [] |} _)).
  reflexivity.
Defined.

(** ** What the merge step writes *)

Lemma append_not_self s t : t <> EmptyString -> s +:+ t <> s.
Proof.
  intros Ht. induction s as [|a s IH].
  - by rewrite append_nil_l.
  - rewrite append_cons. intros [= H]. by apply IH.
Qed.

Lemma V1_parseVisitor_world file visitor w :
  (V1.parseVisitor file visitor w).2 = w.
Proof.
  unfold V1.parseVisitor, Node.readFile, Node.lift, mbind, Node.io_bind.
  by destruct (Node.files w !! file).
Qed.

Lemma V2_parseVisitor_world file visitor w :
  (V2.parseVisitor file visitor w).2 = w.
Proof.
  unfold V2.parseVisitor, Node.readFile, Node.lift, mbind, Node.io_bind.
  by destruct (Node.files w !! file).
Qed.

Lemma V1_generateVisitorFile_run visitorFile mergedVisitor w :
  V1.generateVisitorFile visitorFile mergedVisitor w
  = if Node.writable w visitorFile
    then (Return tt,
          {| Node.files :=
               <[visitorFile := Js.join (V1.mergedLines mergedVisitor)]>
                 (Node.files w);
             Node.writable := Node.writable w;
             Node.journal :=
               (Node.journal w ++
                [Node.FileWritten visitorFile
                   (Js.join (V1.mergedLines mergedVisitor))]) ++
               [Node.ConsoleLog
                  ("Generated new visitor file: " +:+ visitorFile)] |})
    else (Raise (Error ("Could not generate new visitor file: "
                        +:+ Node.writeError visitorFile)), w).
Proof.
  unfold V1.generateVisitorFile, Node.writeFile, mbind, Node.io_bind.
  by destruct (Node.writable w visitorFile).
Qed.

Lemma V2_generateVisitorFile_run visitorFile mergedVisitor w :
  V2.generateVisitorFile visitorFile mergedVisitor w
  = if Node.writable w visitorFile
    then (Return tt,
          {| Node.files :=
               <[visitorFile := Js.join (V2.mergedLines mergedVisitor)]>
                 (Node.files w);
             Node.writable := Node.writable w;
             Node.journal :=
               (Node.journal w ++
                [Node.FileWritten visitorFile
                   (Js.join (V2.mergedLines mergedVisitor))]) ++
               [Node.ConsoleLog
                  ("Generated new visitor file: " +:+ visitorFile)] |})
    else (Raise (Error ("Could not generate new visitor file: "
                        +:+ Node.writeError visitorFile)), w).
Proof.
  unfold V2.generateVisitorFile, Node.writeFile, mbind, Node.io_bind.
  by destruct (Node.writable w visitorFile).
Qed.

Lemma V1_mergeAndGenerate_writesOnly visitorFile oldVisitor visitor mergedVisitor w :
  writesOnly visitorFile w
    (V1.mergeAndGenerateIfDifferent visitorFile oldVisitor visitor mergedVisitor w).
Proof.
  unfold V1.mergeAndGenerateIfDifferent.
  destruct (V1.equalVisitors oldVisitor visitor); [by repeat split|].
  unfold mbind at 1, Node.io_bind at 1. cbn [Node.consoleLog].
  unfold mbind at 1, Node.io_bind at 1, Node.lift.
  destruct (V1.mergeLines visitor _) as [m|e]; [|by repeat split].
  unfold mbind at 1, Node.io_bind at 1. rewrite V1_generateVisitorFile_run.
  cbn [Node.writable]. destruct (Node.writable w visitorFile); [|by repeat split].
  split; [|by split]. intros path Hne. cbn. by rewrite lookup_insert_ne.
Qed.

Lemma V2_mergeAndGenerate_writesOnly visitorFile oldVisitor visitor mergedVisitor w :
  writesOnly visitorFile w
    (V2.mergeAndGenerateIfDifferent visitorFile oldVisitor visitor mergedVisitor w).
Proof.
  unfold V2.mergeAndGenerateIfDifferent.
  destruct (V2.equalVisitors oldVisitor visitor); [by repeat split|].
  unfold mbind at 1, Node.io_bind at 1. cbn [Node.consoleLog].
  unfold mbind at 1, Node.io_bind at 1, Node.lift.
  destruct (V2.mergeLines visitor _) as [m|e]; [|by repeat split].
  unfold mbind at 1, Node.io_bind at 1. rewrite V2_generateVisitorFile_run.
  cbn [Node.writable]. destruct (Node.writable w visitorFile); [|by repeat split].
  split; [|by split]. intros path Hne. cbn. by rewrite lookup_insert_ne.
Qed.

Lemma V1_mergeStep_writesOnly visitorFile w :
  writesOnly visitorFile w (V1.mergeOldVisitorContentsIfDifferent visitorFile w).
Proof.
  unfold V1.mergeOldVisitorContentsIfDifferent.
  unfold mbind at 1, Node.io_bind at 1.
  pose proof (V1_parseVisitor_world (visitorFile +:+ ".old") V1.emptyVisitor w) as H1.
  destruct (V1.parseVisitor (visitorFile +:+ ".old") V1.emptyVisitor w)
    as [[oldVisitor|e] w1]; cbn in H1; subst w1; [|by repeat split].
  unfold mbind at 1, Node.io_bind at 1.
  pose proof (V1_parseVisitor_world visitorFile V1.emptyVisitor w) as H2.
  destruct (V1.parseVisitor visitorFile V1.emptyVisitor w)
    as [[visitor|e] w2]; cbn in H2; subst w2; [|by repeat split].
  apply V1_mergeAndGenerate_writesOnly.
Qed.

Lemma V2_mergeStep_writesOnly visitorFile w :
  writesOnly visitorFile w (V2.mergeOldVisitorContentsIfDifferent visitorFile w).
Proof.
  unfold V2.mergeOldVisitorContentsIfDifferent.
  unfold mbind at 1, Node.io_bind at 1.
  pose proof (V2_parseVisitor_world (visitorFile +:+ ".old") V2.emptyVisitor w) as H1.
  destruct (V2.parseVisitor (visitorFile +:+ ".old") V2.emptyVisitor w)
    as [[oldVisitor|e] w1]; cbn in H1; subst w1; [|by repeat split].
  unfold mbind at 1, Node.io_bind at 1.
  pose proof (V2_parseVisitor_world visitorFile V2.emptyVisitor w) as H2.
  destruct (V2.parseVisitor visitorFile V2.emptyVisitor w)
    as [[visitor|e] w2]; cbn in H2; subst w2; [|by repeat split].
  apply V2_mergeAndGenerate_writesOnly.
Qed.

(** X9.  The merge step of either script writes no file but the visitor
    file: every other path, the backup among them, keeps its content;
    and when the step fails, whether in reading, in extraction or in
    writing, no file has changed at all. *)
Theorem merge_step_writes_only_visitor_file (visitorFile : string)
    (w : Node.World) :
  (writesOnly visitorFile w (V1.mergeOldVisitorContentsIfDifferent visitorFile w)
   /\ Node.files (V1.mergeOldVisitorContentsIfDifferent visitorFile w).2
        !! (visitorFile +:+ ".old")
      = Node.files w !! (visitorFile +:+ ".old"))
  /\ (writesOnly visitorFile w (V2.mergeOldVisitorContentsIfDifferent visitorFile w)
      /\ Node.files (V2.mergeOldVisitorContentsIfDifferent visitorFile w).2
           !! (visitorFile +:+ ".old")
         = Node.files w !! (visitorFile +:+ ".old")).
Proof.
  split.
  - pose proof (V1_mergeStep_writesOnly visitorFile w) as H. split; [done|].
    by apply H, append_not_self.
  - pose proof (V2_mergeStep_writesOnly visitorFile w) as H. split; [done|].
    by apply H, append_not_self.
Qed.

(** ** The backup and the command line script *)

Lemma access_present file data w :
  Node.files w !! file = Some data ->
  Orchestrator.access file w = (Return None, w).
Proof. intros H. unfold Orchestrator.access. by rewrite H. Qed.

Lemma access_absent file w :
  Node.files w !! file = None ->
  Orchestrator.access file w
  = (Return (Some (Orchestrator.noEntry "access" file)), w).
Proof. intros H. unfold Orchestrator.access. by rewrite H. Qed.

Lemma rename_absent visitorFile w :
  Node.files w !! visitorFile = None ->
  Orchestrator.renameOldVisitorIfNecessary visitorFile w
  = (Return tt,
     {| Node.files := Node.files w; Node.writable := Node.writable w;
        Node.journal :=
          Node.journal w ++
          [Node.ConsoleLog
             (Orchestrator.noEntry "access" visitorFile
              +:+ " Skipping rename...")] |}).
Proof.
  intros H. unfold Orchestrator.renameOldVisitorIfNecessary, mbind, Node.io_bind.
  by rewrite (access_absent _ _ H).
Qed.

Lemma rename_copies visitorFile data w :
  Node.files w !! visitorFile = Some data ->
  Node.writable w (visitorFile +:+ ".old") = true ->
  Orchestrator.renameOldVisitorIfNecessary visitorFile w
  = (Return tt,
     {| Node.files := <[visitorFile +:+ ".old" := data]> (Node.files w);
        Node.writable := Node.writable w;
        Node.journal :=
          (Node.journal w ++
           [Node.FileWritten (visitorFile +:+ ".old") data]) ++
          [Node.ConsoleLog
             ("Renamed " +:+ visitorFile +:+ " to " +:+ visitorFile
              +:+ ".old")] |}).
Proof.
  intros H Hw. unfold Orchestrator.renameOldVisitorIfNecessary, mbind, Node.io_bind.
  rewrite (access_present _ _ _ H).
  unfold Orchestrator.renameOldVisitor, Orchestrator.copyFile, Node.writeFile,
    mbind, Node.io_bind.
  by rewrite H, Hw.
Qed.

Lemma rename_fails visitorFile data w :
  Node.files w !! visitorFile = Some data ->
  Node.writable w (visitorFile +:+ ".old") = false ->
  Orchestrator.renameOldVisitorIfNecessary visitorFile w
  = (Raise (Error ("Could not rename " +:+ visitorFile +:+ " to "
                   +:+ visitorFile +:+ ".old")), w).
Proof.
  intros H Hw. unfold Orchestrator.renameOldVisitorIfNecessary, mbind, Node.io_bind.
  rewrite (access_present _ _ _ H).
  unfold Orchestrator.renameOldVisitor, Orchestrator.copyFile, Node.writeFile,
    mbind, Node.io_bind.
  by rewrite H, Hw.
Qed.

(** X10.  The backup step copies and does not move: when the visitor
    file exists and the backup can be written, the backup gets the
    visitor file's content, the visitor file keeps it, and no other file
    changes; when there is no visitor file the step ends well and no file
    changes; when the backup cannot be written the step fails and no
    file changes. *)
Theorem renameOldVisitorIfNecessary_backs_up (visitorFile : string)
    (w : Node.World) :
  (Node.files w !! visitorFile = None ->
   (Orchestrator.renameOldVisitorIfNecessary visitorFile w).1 = Return tt
   /\ Node.files (Orchestrator.renameOldVisitorIfNecessary visitorFile w).2
      = Node.files w)
  /\ (forall data,
        Node.files w !! visitorFile = Some data ->
        Node.writable w (visitorFile +:+ ".old") = true ->
        (Orchestrator.renameOldVisitorIfNecessary visitorFile w).1 = Return tt
        /\ Node.files (Orchestrator.renameOldVisitorIfNecessary visitorFile w).2
             !! (visitorFile +:+ ".old") = Some data
        /\ Node.files (Orchestrator.renameOldVisitorIfNecessary visitorFile w).2
             !! visitorFile = Some data
        /\ forall path,
             path <> visitorFile +:+ ".old" ->
             Node.files (Orchestrator.renameOldVisitorIfNecessary visitorFile w).2
               !! path = Node.files w !! path)
  /\ (forall data,
        Node.files w !! visitorFile = Some data ->
        Node.writable w (visitorFile +:+ ".old") = false ->
        Orchestrator.renameOldVisitorIfNecessary visitorFile w
        = (Raise (Error ("Could not rename " +:+ visitorFile +:+ " to "
                         +:+ visitorFile +:+ ".old")), w)).
Proof.
  split; [|split].
  - intros H. by rewrite (rename_absent _ _ H).
  - intros data H Hw. rewrite (rename_copies _ _ _ H Hw). cbn.
    split; [done|]. split; [apply lookup_insert_eq|]. split.
    + rewrite lookup_insert_ne; [done|]. by apply append_not_self.
    + intros path Hne. by rewrite lookup_insert_ne.
  - intros data. apply rename_fails.
Qed.

Lemma renameOldVisitorIfNecessary_backs_up_witness :
  Node.files
    (Orchestrator.renameOldVisitorIfNecessary "GVisitor.js"
       {| Node.files := {[ "GVisitor.js" := "// edited" ]};
          Node.writable := fun _ => true; Node.journal := [] |}).2
    !! "GVisitor.js.old" = Some "// edited".
Proof.
  refine (proj1 (proj2 (proj1 (proj2 (renameOldVisitorIfNecessary_backs_up
    "GVisitor.js"
    {| Node.files := {[ "GVisitor.js" := "// edited" ]};
       Node.writable := fun _ => true; Node.journal := [] |}))
    "// edited" _ _))).
  - vm_compute. reflexivity.
  - reflexivity.
Defined.

Section ScriptFacts.
Context {M : Type}.
Variable resolve : string -> string.
Variable resolveIn : string -> string -> string.
Variable extname : string -> string.
Variable dirname : string -> string.
Variable basename : string -> string -> string.
Variable exec : string -> IO (option string).
Variable mergeStep : string -> IO M.

Local Abbreviation visitorFileOf :=
  (Main.visitorFileOf resolve resolveIn dirname basename).
Local Abbreviation execute :=
  (Main.execute resolve resolveIn dirname basename exec mergeStep).
Local Abbreviation main :=
  (Main.main resolve resolveIn extname dirname basename exec mergeStep).

Lemma execute_backup_fails argv argument data w :
  argv !! 2 = Some argument ->
  Node.files w !! visitorFileOf argument = Some data ->
  Node.writable w (visitorFileOf argument +:+ ".old") = false ->
  execute argv w
  = (Raise (Error ("Could not rename " +:+ visitorFileOf argument +:+ " to "
                   +:+ visitorFileOf argument +:+ ".old")), w).
Proof.
  intros Harg H Hw. unfold Main.execute. rewrite Harg.
  unfold mbind at 1, Node.io_bind at 1.
  by rewrite (rename_fails _ _ _ H Hw).
Qed.

Lemma execute_generator_fails argv argument text w w1 w2 :
  argv !! 2 = Some argument ->
  Orchestrator.renameOldVisitorIfNecessary (visitorFileOf argument) w
  = (Return tt, w1) ->
  exec ("java -jar /usr/local/lib/antlr-4.7.2-complete.jar -Dlanguage=JavaScript "
        +:+ resolve argument +:+ " -visitor -no-listener") w1
  = (Return (Some text), w2) ->
  execute argv w
  = (Raise (Error ("Could not regenerate visitor with antlr: " +:+ text)), w2).
Proof.
  intros Harg Hren Hexec. unfold Main.execute. rewrite Harg.
  unfold mbind at 1, Node.io_bind at 1. rewrite Hren.
  unfold mbind at 1, Node.io_bind at 1.
  unfold Main.regenerateNewVisitor, mbind at 1, Node.io_bind at 1.
  by rewrite Hexec.
Qed.

Lemma main_too_few_arguments argv w :
  length argv < 3 ->
  main argv w
  = (Return tt,
     {| Node.files := Node.files w; Node.writable := Node.writable w;
        Node.journal :=
          Node.journal w ++ [Node.ConsoleLog "Error: Not enough arguments"] |}).
Proof.
  intros Hlen. unfold Main.main, Main.verify, Main.verifyNumberOfArguments.
  unfold mbind, Node.io_bind, Node.lift.
  apply Nat.ltb_lt in Hlen. by rewrite Hlen.
Qed.

Lemma main_wrong_extension argv argument w :
  3 <= length argv ->
  argv !! 2 = Some argument ->
  extname (resolve argument) <> ".g4" ->
  main argv w
  = (Return tt,
     {| Node.files := Node.files w; Node.writable := Node.writable w;
        Node.journal :=
          Node.journal w ++
          [Node.ConsoleLog
             ("Error: Expected extension .g4 but got "
              +:+ extname (resolve argument))] |}).
Proof.
  intros Hlen Harg Hext.
  unfold Main.main, Main.verify, Main.verifyNumberOfArguments,
    Main.verifyFileExtension.
  unfold mbind, Node.io_bind, Node.lift, mret, Node.io_ret.
  apply Nat.ltb_ge in Hlen. rewrite Hlen, Harg.
  apply String.eqb_neq in Hext. unfold Main.GRAMMAR_EXTENSION.
  by rewrite Hext.
Qed.

Lemma execute_first_generation argv argument w w2 :
  argv !! 2 = Some argument ->
  Node.files w !! visitorFileOf argument = None ->
  exec ("java -jar /usr/local/lib/antlr-4.7.2-complete.jar -Dlanguage=JavaScript "
        +:+ resolve argument +:+ " -visitor -no-listener")
    (Orchestrator.renameOldVisitorIfNecessary (visitorFileOf argument) w).2
  = (Return None, w2) ->
  Node.files w2 !! (visitorFileOf argument +:+ ".old") = None ->
  execute argv w
  = (Return None,
     {| Node.files := Node.files w2; Node.writable := Node.writable w2;
        Node.journal :=
          (Node.journal w2 ++
           [Node.ConsoleLog
              ("Regenerated visitor from " +:+ resolve argument
               +:+ " via antlr4")]) ++
          [Node.ConsoleLog
             (Orchestrator.noEntry "access" (visitorFileOf argument +:+ ".old")
              +:+ " Skipping merge...")] |}).
Proof.
  intros Harg Hnone Hexec Hold. unfold Main.execute. rewrite Harg.
  unfold mbind at 1, Node.io_bind at 1.
  rewrite (rename_absent _ _ Hnone) in *. cbn [snd] in Hexec.
  unfold mbind at 1, Node.io_bind at 1.
  unfold Main.regenerateNewVisitor, mbind at 1, Node.io_bind at 1.
  rewrite Hexec. cbn [Node.consoleLog].
  unfold Orchestrator.mergeOldVisitorContentsIfOldVisitorExists.
  unfold mbind at 1, Node.io_bind at 1.
  by rewrite access_absent by done.
Qed.

Lemma execute_merges argv argument w w2 data :
  argv !! 2 = Some argument ->
  (Orchestrator.renameOldVisitorIfNecessary (visitorFileOf argument) w).1
  = Return tt ->
  exec ("java -jar /usr/local/lib/antlr-4.7.2-complete.jar -Dlanguage=JavaScript "
        +:+ resolve argument +:+ " -visitor -no-listener")
    (Orchestrator.renameOldVisitorIfNecessary (visitorFileOf argument) w).2
  = (Return None, w2) ->
  Node.files w2 !! (visitorFileOf argument +:+ ".old") = Some data ->
  execute argv w
  = (mergedVisitor ← mergeStep (visitorFileOf argument); mret (Some mergedVisitor))
      {| Node.files := Node.files w2; Node.writable := Node.writable w2;
         Node.journal :=
           Node.journal w2 ++
           [Node.ConsoleLog
              ("Regenerated visitor from " +:+ resolve argument
               +:+ " via antlr4")] |}.
Proof.
  intros Harg Hren Hexec Hold. unfold Main.execute. rewrite Harg.
  unfold mbind at 1, Node.io_bind at 1.
  destruct (Orchestrator.renameOldVisitorIfNecessary (visitorFileOf argument) w)
    as [r w1]. cbn [fst snd] in *. subst r.
  unfold mbind at 1, Node.io_bind at 1.
  unfold Main.regenerateNewVisitor, mbind at 1, Node.io_bind at 1.
  rewrite Hexec. cbn [Node.consoleLog].
  unfold Orchestrator.mergeOldVisitorContentsIfOldVisitorExists.
  unfold mbind at 1, Node.io_bind at 1.
  by rewrite (access_present _ data).
Qed.

(** X11.  [execute] stops at the first failure: when the backup cannot
    be written it fails with the world as it found it, whatever the
    generator and the merge step are, so neither has run; when the
    generator reports an error it fails with the world as the generator
    left it, so the merge step has not run. *)
Theorem execute_stops_at_first_failure (argv : list string)
    (argument : string) (w : Node.World) :
  argv !! 2 = Some argument ->
  (forall data,
     Node.files w !! visitorFileOf argument = Some data ->
     Node.writable w (visitorFileOf argument +:+ ".old") = false ->
     execute argv w
     = (Raise (Error ("Could not rename " +:+ visitorFileOf argument +:+ " to "
                      +:+ visitorFileOf argument +:+ ".old")), w))
  /\ (forall text w1 w2,
        Orchestrator.renameOldVisitorIfNecessary (visitorFileOf argument) w
        = (Return tt, w1) ->
        exec ("java -jar /usr/local/lib/antlr-4.7.2-complete.jar -Dlanguage=JavaScript "
              +:+ resolve argument +:+ " -visitor -no-listener") w1
        = (Return (Some text), w2) ->
        execute argv w
        = (Raise (Error ("Could not regenerate visitor with antlr: " +:+ text)),
           w2)).
Proof.
  intros Harg. split.
  - intros data. by apply execute_backup_fails.
  - intros text w1 w2. by apply execute_generator_fails.
Qed.

(** X12.  After a generation that went well, [execute] runs the merge
    step exactly when a backup exists: without a visitor file before and
    without a backup after the generator, it ends well with no merged
    model and with the files as the generator left them; with a backup,
    it is the merge step run on the world the generator left. *)
Theorem execute_merges_when_backup_exists (argv : list string)
    (argument : string) (w w2 : Node.World) :
  argv !! 2 = Some argument ->
  exec ("java -jar /usr/local/lib/antlr-4.7.2-complete.jar -Dlanguage=JavaScript "
        +:+ resolve argument +:+ " -visitor -no-listener")
    (Orchestrator.renameOldVisitorIfNecessary (visitorFileOf argument) w).2
  = (Return None, w2) ->
  (Node.files w !! visitorFileOf argument = None ->
   Node.files w2 !! (visitorFileOf argument +:+ ".old") = None ->
   (execute argv w).1 = Return None
   /\ Node.files (execute argv w).2 = Node.files w2)
  /\ (forall data,
        (Orchestrator.renameOldVisitorIfNecessary (visitorFileOf argument) w).1
        = Return tt ->
        Node.files w2 !! (visitorFileOf argument +:+ ".old") = Some data ->
        execute argv w
        = (mergedVisitor ← mergeStep (visitorFileOf argument);
           mret (Some mergedVisitor))
            {| Node.files := Node.files w2; Node.writable := Node.writable w2;
               Node.journal :=
                 Node.journal w2 ++
                 [Node.ConsoleLog
                    ("Regenerated visitor from " +:+ resolve argument
                     +:+ " via antlr4")] |}).
Proof.
  intros Harg Hexec. split.
  - intros Hnone Hold.
    by rewrite (execute_first_generation _ argument _ w2).
  - intros data Hren Hold. by apply (execute_merges _ _ _ _ data).
Qed.

(** X13.  [main] turns down bad arguments before anything is touched:
    with fewer than three arguments, or with a grammar file whose
    extension is not [.g4], it prints the error, changes no file and
    runs neither the generator nor the merge step; with good arguments
    [verify] passes and leaves the world as it is. *)
Theorem main_rejects_bad_arguments (argv : list string) (w : Node.World) :
  (length argv < 3 ->
   main argv w
   = (Return tt,
      {| Node.files := Node.files w; Node.writable := Node.writable w;
         Node.journal :=
           Node.journal w ++
           [Node.ConsoleLog "Error: Not enough arguments"] |}))
  /\ (forall argument,
        3 <= length argv ->
        argv !! 2 = Some argument ->
        extname (resolve argument) <> ".g4" ->
        main argv w
        = (Return tt,
           {| Node.files := Node.files w; Node.writable := Node.writable w;
              Node.journal :=
                Node.journal w ++
                [Node.ConsoleLog
                   ("Error: Expected extension .g4 but got "
                    +:+ extname (resolve argument))] |}))
  /\ (forall argument,
        3 <= length argv ->
        argv !! 2 = Some argument ->
        extname (resolve argument) = ".g4" ->
        Main.verify resolve extname argv w = (Return tt, w)).
Proof.
  split; [apply main_too_few_arguments|]. split.
  - intros argument. apply main_wrong_extension.
  - intros argument Hlen Harg Hext.
    unfold Main.verify, Main.verifyNumberOfArguments, Main.verifyFileExtension.
    unfold mbind, Node.io_bind, Node.lift, mret, Node.io_ret.
    apply Nat.ltb_ge in Hlen. rewrite Hlen, Harg, Hext. done.
Qed.

End ScriptFacts.

Lemma execute_stops_at_first_failure_witness :
  Main.execute (fun p => p) (fun dir name => dir +:+ "/" +:+ name)
    (fun _ => ".") (fun _ _ => "G")
    (fun _ w => (Return None, w)) V1.mergeOldVisitorContentsIfDifferent
    ["node"; "regenerateVisitor.js"; "G.g4"]
    {| Node.files := {[ "./GVisitor.js" := "// edited" ]};
       Node.writable := fun _ => false; Node.journal := [] |}
  = (Raise (Error "Could not rename ./GVisitor.js to ./GVisitor.js.old"),
     {| Node.files := {[ "./GVisitor.js" := "// edited" ]};
        Node.writable := fun _ => false; Node.journal := [] |}).
Proof.
  refine (proj1 (execute_stops_at_first_failure
    (fun p => p) (fun dir name => dir +:+ "/" +:+ name)
    (fun _ => ".") (fun _ _ => "G")
    (fun _ w => (Return None, w)) V1.mergeOldVisitorContentsIfDifferent
    ["node"; "regenerateVisitor.js"; "G.g4"] "G.g4"
    {| Node.files := {[ "./GVisitor.js" := "// edited" ]};
       Node.writable := fun _ => false; Node.journal := [] |} _)
    "// edited" _ _).
  - reflexivity.
  - vm_compute. reflexivity.
  - reflexivity.
Defined.

Lemma execute_merges_when_backup_exists_witness :
  (Main.execute (fun p => p) (fun dir name => dir +:+ "/" +:+ name)
     (fun _ => ".") (fun _ _ => "G")
     (fun _ w =>
        (Return None,
         {| Node.files := <[ "./GVisitor.js" := "// generated" ]> (Node.files w);
            Node.writable := Node.writable w; Node.journal := Node.journal w |}))
     V1.mergeOldVisitorContentsIfDifferent
     ["node"; "regenerateVisitor.js"; "G.g4"]
     {| Node.files := ∅; Node.writable := fun _ => true; Node.journal := [] |}).1
  = Return None.
Proof.
  refine (proj1 (proj1 (execute_merges_when_backup_exists
    (fun p => p) (fun dir name => dir +:+ "/" +:+ name)
    (fun _ => ".") (fun _ _ => "G")
    (fun _ w =>
       (Return None,
        {| Node.files := <[ "./GVisitor.js" := "// generated" ]> (Node.files w);
           Node.writable := Node.writable w; Node.journal := Node.journal w |}))
    V1.mergeOldVisitorContentsIfDifferent
    ["node"; "regenerateVisitor.js"; "G.g4"] "G.g4"
    {| Node.files := ∅; Node.writable := fun _ => true; Node.journal := [] |}
    _ _ _) _ _)).
  - reflexivity.
  - reflexivity.
  - vm_compute. reflexivity.
  - vm_compute. reflexivity.
Defined.

Lemma main_rejects_bad_arguments_witness :
  Main.main (fun p => p) (fun dir name => dir +:+ "/" +:+ name)
    (fun _ => ".txt") (fun _ => ".") (fun _ _ => "G")
    (fun _ w => (Return None, w)) V1.mergeOldVisitorContentsIfDifferent
    ["node"; "regenerateVisitor.js"]
    {| Node.files := ∅; Node.writable := fun _ => true; Node.journal := [] |}
  = (Return tt,
     {| Node.files := ∅; Node.writable := fun _ => true;
        Node.journal := [Node.ConsoleLog "Error: Not enough arguments"] |}).
Proof.
  refine (proj1 (main_rejects_bad_arguments
    (fun p => p) (fun dir name => dir +:+ "/" +:+ name)
    (fun _ => ".txt") (fun _ => ".") (fun _ _ => "G")
    (fun _ w => (Return None, w)) V1.mergeOldVisitorContentsIfDifferent
    ["node"; "regenerateVisitor.js"]
    {| Node.files := ∅; Node.writable := fun _ => true; Node.journal := [] |})
    _).
  simpl. lia.
Defined.

(** ** What a merge writes *)

Lemma rewritten_plain_prefix functions (plain rest : list string) :
  Forall (fun line => Shared.declaresStub line = false) plain ->
  Forward.rewritten functions (plain ++ rest)
  = (Some <$> plain) ++ Forward.rewritten functions rest.
Proof.
  induction plain as [|line plain IH]; intros Hall; [done|].
  apply Forall_cons in Hall as [Hline Hall].
  rewrite <- app_comm_cons, rewritten_other by done.
  rewrite fmap_cons, <- app_comm_cons. by rewrite IH.
Qed.

Lemma V1_mergeLines_fresh visitor functions :
  V1.mergeLines visitor
    {| V1.mergedLines := []; V1.mergedFunctions := functions |}
  = Return {| V1.mergedLines := Forward.rewritten functions (V1.lines visitor);
              V1.mergedFunctions := functions |}.
Proof.
  unfold V1.mergeLines. cbn [V1.mergedLines V1.mergedFunctions].
  rewrite app_nil_l. by rewrite spliceStubs_all.
Qed.

Lemma V2_mergeLines_fresh visitor functions imports :
  V2.mergeLines visitor
    {| V2.mergedLines := []; V2.mergedFunctions := functions;
       V2.mergedImports := imports |}
  = Return {| V2.mergedLines :=
                Forward.rewritten functions
                  (Js.splice (V2.lines visitor) 2 1 (Js.StrSet.values imports));
              V2.mergedFunctions := functions;
              V2.mergedImports := imports |}.
Proof.
  unfold V2.mergeLines.
  cbn [V2.mergedLines V2.mergedFunctions V2.mergedImports].
  rewrite app_nil_l.
  assert (Hsplice :
    Js.splice (Some <$> V2.lines visitor) 2 1 (Some <$> Js.StrSet.values imports)
    = Some <$> Js.splice (V2.lines visitor) 2 1 (Js.StrSet.values imports)).
  { unfold Js.splice. by rewrite !fmap_app, fmap_take, fmap_drop. }
  rewrite Hsplice. by rewrite spliceStubs_all.
Qed.

(** X14.  In the later script the merged imports take the place of the
    third line of the new file: when the first two lines and the imports
    declare no stub, the serialized lines are the first two lines, then
    every merged import in the order of the set, then the rest of the
    file from its fourth line on with the stub bodies replaced; the third
    line itself is dropped. *)
Theorem V2_mergeLines_places_imports (visitor : V2.Visitor)
    (mergedVisitor : V2.MergedVisitor)
    (first second third : string) (rest : list string) :
  V2.mergedLines mergedVisitor = [] ->
  V2.lines visitor = first :: second :: third :: rest ->
  Shared.declaresStub first = false ->
  Shared.declaresStub second = false ->
  Forall (fun line => Shared.declaresStub line = false)
    (V2.mergedImports mergedVisitor) ->
  V2.mergeLines visitor mergedVisitor
  = Return
      {| V2.mergedLines :=
           Some first :: Some second
           :: (Some <$> V2.mergedImports mergedVisitor)
           ++ Forward.rewritten (V2.mergedFunctions mergedVisitor) rest;
         V2.mergedFunctions := V2.mergedFunctions mergedVisitor;
         V2.mergedImports := V2.mergedImports mergedVisitor |}.
Proof.
  intros Hempty Hlines Hfirst Hsecond Himports.
  destruct mergedVisitor as [mlines mfunctions mimports].
  cbn [V2.mergedLines V2.mergedFunctions V2.mergedImports] in *. subst mlines.
  rewrite V2_mergeLines_fresh, Hlines. f_equal. f_equal.
  unfold Js.splice, Js.StrSet.values. cbn [take drop firstn skipn Nat.add].
  rewrite drop_0.
  rewrite (rewritten_plain_prefix _ [first; second]) by (by repeat constructor).
  cbn [fmap list_fmap app]. f_equal. f_equal.
  by apply rewritten_plain_prefix.
Qed.

Lemma V2_mergeLines_places_imports_witness :
  V2.mergeLines
    {| V2.lines := ["// Generated from G.g4"; "// jshint ignore:start";
                    "var antlr4 = require('antlr4/index');"; "";
                    "G.visitA = function(ctx) {";
                    "  return this.visitChildren(ctx);"; "};"];
       V2.functions := [("G.visitA", ["  return this.visitChildren(ctx);"])];
       V2.imports := ["var antlr4 = require('antlr4/index');"] |}
    {| V2.mergedLines := [];
       V2.mergedFunctions := [("G.visitA", ["  return util.f(ctx);"])];
       V2.mergedImports := ["var util = require('./util');";
                            "var antlr4 = require('antlr4/index');"] |}
  = Return
      {| V2.mergedLines :=
           [Some "// Generated from G.g4"; Some "// jshint ignore:start";
            Some "var util = require('./util');";
            Some "var antlr4 = require('antlr4/index');"; Some "";
            Some "G.visitA = function(ctx) {"; Some "  return util.f(ctx);";
            Some "};"];
         V2.mergedFunctions := [("G.visitA", ["  return util.f(ctx);"])];
         V2.mergedImports := ["var util = require('./util');";
                              "var antlr4 = require('antlr4/index');"] |}.
Proof.
  refine (V2_mergeLines_places_imports
    {| V2.lines := ["// Generated from G.g4"; "// jshint ignore:start";
                    "var antlr4 = require('antlr4/index');"; "";
                    "G.visitA = function(ctx) {";
                    "  return this.visitChildren(ctx);"; "};"];
       V2.functions := [("G.visitA", ["  return this.visitChildren(ctx);"])];
       V2.imports := ["var antlr4 = require('antlr4/index');"] |}
    {| V2.mergedLines := [];
       V2.mergedFunctions := [("G.visitA", ["  return util.f(ctx);"])];
       V2.mergedImports := ["var util = require('./util');";
                            "var antlr4 = require('antlr4/index');"] |}
    "// Generated from G.g4" "// jshint ignore:start"
    "var antlr4 = require('antlr4/index');"
    [""; "G.visitA = function(ctx) {"; "  return this.visitChildren(ctx);"; "};"]
    _ _ _ _ _).
  - reflexivity.
  - reflexivity.
  - reflexivity.
  - reflexivity.
  - repeat constructor.
Defined.





(** ** The merged file parses back to the merged stubs *)

Lemma eachOfSeries_plain all (plain rest : list string) index
    (functions : Js.Map.t (list string)) :
  Forall (fun line => Shared.declaresStub line = false) plain ->
  Shared.eachOfSeries (plain ++ rest) index (Shared.populateLine all) functions
  = Shared.eachOfSeries rest (index + length plain) (Shared.populateLine all)
      functions.
Proof.
  revert index. induction plain as [|line plain IH]; intros index Hall.
  - by rewrite app_nil_l, Nat.add_0_r.
  - apply Forall_cons in Hall as [Hline Hall].
    rewrite <- app_comm_cons. cbn [Shared.eachOfSeries].
    rewrite populateLine_other by done. cbn.
    rewrite IH by done. f_equal. cbn [length]. lia.
Qed.

Lemma templated_parses_back functions lines :
  Stub.Templated functions lines ->
  exists out,
    Forward.rewritten functions lines = Some <$> out
    /\ Forall oneLine out
    /\ (lines <> [] -> out <> [])
    /\ (forall line, In line lines -> Shared.declaresStub line = true ->
                     In line out)
    /\ forall pre init,
         exists result,
           Shared.eachOfSeries out (length pre)
             (Shared.populateLine (pre ++ out)) init
           = Return result
           /\ ((forall name body, Js.Map.get name init = Some body ->
                                  Js.Map.get name functions = Some body) ->
               forall name body, Js.Map.get name result = Some body ->
                                 Js.Map.get name functions = Some body).
Proof.
  induction 1 as [|line rest Hplain Hone _ IH
                  |decl placeholder closing body rest Hdecl Hdone Hph Hcl Hcone
                     Hget Hbody Henc _ IH].
  - exists []. split; [done|]. split; [constructor|]. split; [done|].
    split; [by intros ? []|]. intros pre init. exists init. by split.
  - destruct IH as (out & Hout & Hones & _ & Hdecls & Hrun).
    exists (line :: out). split; [by rewrite rewritten_other, Hout|].
    split; [by constructor|]. split; [done|]. split.
    + intros l [<-|Hin] Hd; [by left|]. right. by apply Hdecls.
    + intros pre init.
      destruct (Hrun (pre ++ [line]) init) as (result & Hres & Hagree).
      exists result. split; [|done].
      cbn [Shared.eachOfSeries]. rewrite populateLine_other by done. cbn.
      rewrite length_app, <- app_assoc in Hres. cbn in Hres.
      by replace (S (length pre)) with (length pre + 1) by lia.
  - destruct IH as (out & Hout & Hones & _ & Hdecls & Hrun).
    exists (decl :: body ++ closing :: out). split.
    { rewrite rewritten_stub by done. rewrite Hget.
      rewrite rewritten_other, Hout by done. cbn [Js.concat_arg].
      by rewrite fmap_cons, fmap_app, fmap_cons. }
    split.
    { constructor; [done|]. apply Forall_app. split.
      - eapply Forall_impl; [exact Hbody|]. by intros l [_ ?].
      - by constructor. }
    split; [done|]. split.
    { intros l [<-|[<-|[<-|Hin]]] Hd; try congruence.
      - by left.
      - right. apply in_or_app. right. right. by apply Hdecls. }
    intros pre init.
    destruct (Hrun (pre ++ decl :: body ++ [closing])
                (Js.Map.set (Shared.functionNameOf decl) body init))
      as (result & Hres & Hagree).
    exists result. split.
    + cbn [Shared.eachOfSeries]. rewrite populateLine_stub by done.
      rewrite getFunctionBody_enclosed by done. cbn.
      replace (body ++ closing :: out) with ((body ++ [closing]) ++ out)
        by (by rewrite <- app_assoc).
      rewrite eachOfSeries_plain.
      * rewrite <- Hres. f_equal.
        -- rewrite !length_app. cbn [length]. rewrite length_app. cbn. lia.
        -- f_equal. rewrite <- !app_assoc. cbn. by rewrite <- app_assoc.
      * apply Forall_app. split.
        -- eapply Forall_impl; [exact Hbody|]. by intros l [? _].
        -- by constructor.
    + intros Hinit. apply Hagree. intros name b.
      destruct (string_dec (Shared.functionNameOf decl) name) as [<-|Hne].
      * rewrite map_get_set_eq. by intros [= <-].
      * rewrite map_get_set_ne by done. apply Hinit.
Qed.

(** X16.  For a new file in the generated shape, serializing the merged
    stubs and parsing the written text again gives the merged stubs back:
    the serializer ends well, the text it joins parses, every stub
    declared in the new file has in the parsed model exactly the merged
    body of its name, and the parsed model has no other stub. *)
Theorem merged_file_parses_back (functions : Js.Map.t (list string))
    (visitor : V1.Visitor) :
  Stub.Templated functions (V1.lines visitor) ->
  V1.lines visitor <> [] ->
  exists mergedVisitor parsed,
    V1.mergeLines visitor
      {| V1.mergedLines := []; V1.mergedFunctions := functions |}
    = Return mergedVisitor
    /\ V1.parseVisitorData (Js.join (V1.mergedLines mergedVisitor))
         V1.emptyVisitor
       = Return parsed
    /\ (forall line,
          In line (V1.lines visitor) -> Shared.declaresStub line = true ->
          Js.Map.get (Shared.functionNameOf line) (V1.functions parsed)
          = Js.Map.get (Shared.functionNameOf line) functions)
    /\ (forall name body,
          Js.Map.get name (V1.functions parsed) = Some body ->
          Js.Map.get name functions = Some body).
Proof.
  intros Hshape Hne.
  destruct (templated_parses_back _ _ Hshape)
    as (out & Hout & Hones & Hnonempty & Hdecls & Hrun).
  destruct (Hrun [] Js.Map.empty) as (result & Hres & Hagree).
  rewrite app_nil_l in Hres. cbn [length] in Hres.
  assert (Hagrees : forall name body, Js.Map.get name result = Some body ->
                                      Js.Map.get name functions = Some body).
  { apply Hagree. by intros name body. }
  exists {| V1.mergedLines := Forward.rewritten functions (V1.lines visitor);
            V1.mergedFunctions := functions |},
         {| V1.lines := out; V1.functions := result |}.
  split; [apply V1_mergeLines_fresh|]. split.
  { cbn [V1.mergedLines]. rewrite Hout, V1_parseVisitorData_unfold.
    rewrite split_join by auto.
    unfold Shared.populateVisitorFunctions. by rewrite Hres. }
  split; [|done]. cbn [V1.functions].
  intros line Hin Hd.
  assert (Hkey : is_Some (Js.Map.get (Shared.functionNameOf line) result)).
  { apply map_get_Some_keys.
    apply (eachOfSeries_populate_keys _ _ _ _ _ _ Hres). right.
    exists line. split; [by apply Hdecls|done]. }
  destruct Hkey as [body Hbody]. rewrite Hbody. symmetry. by apply Hagrees.
Qed.

Lemma merged_file_parses_back_witness :
  exists mergedVisitor parsed,
    V1.mergeLines
      {| V1.lines := ["// header"; "G.visitA = function(ctx) {";
                      "  return this.visitChildren(ctx);"; "};"];
         V1.functions := [("G.visitA", ["  return this.visitChildren(ctx);"])] |}
      {| V1.mergedLines := [];
         V1.mergedFunctions :=
           [("G.visitA", ["  if (ctx.x) {"; "    return 1;"; "  }"])] |}
    = Return mergedVisitor
    /\ V1.parseVisitorData (Js.join (V1.mergedLines mergedVisitor))
         V1.emptyVisitor
       = Return parsed
    /\ (forall line,
          In line ["// header"; "G.visitA = function(ctx) {";
                   "  return this.visitChildren(ctx);"; "};"] ->
          Shared.declaresStub line = true ->
          Js.Map.get (Shared.functionNameOf line) (V1.functions parsed)
          = Js.Map.get (Shared.functionNameOf line)
              [("G.visitA", ["  if (ctx.x) {"; "    return 1;"; "  }"])])
    /\ (forall name body,
          Js.Map.get name (V1.functions parsed) = Some body ->
          Js.Map.get name
            [("G.visitA", ["  if (ctx.x) {"; "    return 1;"; "  }"])]
          = Some body).
Proof.
  refine (merged_file_parses_back
    [("G.visitA", ["  if (ctx.x) {"; "    return 1;"; "  }"])]
    {| V1.lines := ["// header"; "G.visitA = function(ctx) {";
                    "  return this.visitChildren(ctx);"; "};"];
       V1.functions := [("G.visitA", ["  return this.visitChildren(ctx);"])] |}
    _ _).
  - simpl. apply Stub.templated_plain; [reflexivity|reflexivity|].
    apply (Stub.templated_stub _ _ _ _
             ["  if (ctx.x) {"; "    return 1;"; "  }"]);
      try reflexivity.
    + repeat constructor.
    + split.
      * intros j Hj. simpl in Hj.
        assert (j = 0 \/ j = 1 \/ j = 2 \/ j = 3)
          as [-> | [-> | [-> | ->] ] ] by lia; by vm_compute.
      * by vm_compute.
    + apply Stub.templated_nil.
  - simpl. discriminate.
Defined.

(** ** The order of the merged imports *)

Lemma strset_has_app x (s t : Js.StrSet.t) :
  Js.StrSet.has x (s ++ t) = Js.StrSet.has x s || Js.StrSet.has x t.
Proof.
  induction s as [|y s IH]; [done|]. cbn [app Js.StrSet.has].
  by destruct (String.eqb y x).
Qed.

Lemma addEach_new_members (xs : list string) (s : Js.StrSet.t) :
  NoDup xs ->
  fold_left (fun (s : Js.StrSet.t) importLine => Js.StrSet.add importLine s) xs s
  = s ++ List.filter (fun x => negb (Js.StrSet.has x s)) xs.
Proof.
  revert s. induction xs as [|x xs IH]; intros s Hnd.
  - by rewrite app_nil_r.
  - apply NoDup_cons in Hnd as [Hx Hnd]. cbn [fold_left List.filter].
    rewrite IH by done. unfold Js.StrSet.add.
    destruct (Js.StrSet.has x s) eqn:Hhas; cbn [negb]; [done|].
    rewrite <- app_assoc. cbn [app]. f_equal. f_equal.
    apply filter_ext_in. intros y Hy. rewrite strset_has_app.
    cbn [Js.StrSet.has]. destruct (String.eqb_spec x y) as [->|Hne].
    + destruct Hx. by apply list_elem_of_In.
    + by rewrite orb_false_r.
Qed.

(** X17.  The merged imports keep the old imports first, in their order,
    and append the imports that only the new file has, in the new file's
    order. *)
Theorem mergeImportSets_order (oldImports newImports : Js.StrSet.t) :
  NoDup oldImports -> NoDup newImports ->
  V2.mergeImportSets oldImports newImports
  = oldImports
    ++ List.filter (fun line => negb (Js.StrSet.has line oldImports)) newImports.
Proof.
  intros Hold Hnew. unfold V2.mergeImportSets, Js.StrSet.values.
  rewrite strset_from_id by done. by apply addEach_new_members.
Qed.

Lemma mergeImportSets_order_witness :
  V2.mergeImportSets
    ["var util = require('./util');"; "var antlr4 = require('antlr4/index');"]
    ["var antlr4 = require('antlr4/index');"; "var fs = require('fs');"]
  = ["var util = require('./util');"; "var antlr4 = require('antlr4/index');"]
    ++ List.filter
         (fun line =>
            negb (Js.StrSet.has line
                    ["var util = require('./util');";
                     "var antlr4 = require('antlr4/index');"]))
         ["var antlr4 = require('antlr4/index');"; "var fs = require('fs');"].
Proof.
  refine (mergeImportSets_order
    ["var util = require('./util');"; "var antlr4 = require('antlr4/index');"]
    ["var antlr4 = require('antlr4/index');"; "var fs = require('fs');"] _ _).
  - apply (bool_decide_unpack _). vm_compute. reflexivity.
  - apply (bool_decide_unpack _). vm_compute. reflexivity.
Defined.

(** ** Every stub of a parsed file is a block of its lines *)

Lemma eachOfSeries_populate_blocks lines coll index init result :
  coll = drop index lines ->
  Shared.eachOfSeries coll index (Shared.populateLine lines) init
  = Return result ->
  forall name body,
    Js.Map.get name result = Some body ->
    Js.Map.get name init = Some body
    \/ exists i line k,
         lines !! i = Some line
         /\ Shared.declaresStub line = true
         /\ name = Shared.functionNameOf line
         /\ Scan.closesAfter (drop i lines) k
         /\ body = take (k - 2) (drop (S i) lines).
Proof.
  revert index init.
  induction coll as [|head coll IH]; intros index init Hcoll Hrun name body Hget.
  - cbn in Hrun. injection Hrun as <-. by left.
  - symmetry in Hcoll. apply drop_cons_inv in Hcoll as [Hhead Hrest].
    cbn [Shared.eachOfSeries] in Hrun.
    destruct (Js.includes head "function(ctx)") eqn:Hdecl.
    + rewrite populateLine_stub in Hrun by done.
      destruct (closesAfter_or_never (drop index lines)) as [[k Hk]|Hnever].
      * rewrite (getFunctionBody_closes _ _ _ Hk) in Hrun. cbn in Hrun.
        destruct (IH _ _ (eq_sym Hrest) Hrun name body Hget) as [Hinit|Hblock];
          [|by right].
        destruct (string_dec (Shared.functionNameOf head) name) as [<-|Hne].
        -- rewrite map_get_set_eq in Hinit. injection Hinit as <-.
           right. by exists index, head, k.
        -- rewrite map_get_set_ne in Hinit by done. by left.
      * by rewrite (getFunctionBody_unclosed _ _ Hnever) in Hrun.
    + rewrite populateLine_other in Hrun by done. cbn in Hrun.
      by apply (IH _ _ (eq_sym Hrest) Hrun).
Qed.

(** X18.  Every stub of a parsed model comes from the file: its name is
    derived from a line that declares a stub, and its body is the block
    of lines strictly between that line and the line that ends its
    scan. *)
Theorem populateVisitorFunctions_stubs_are_blocks
    (lines : list string) (functions : Js.Map.t (list string))
    (name : string) (body : list string) :
  Shared.populateVisitorFunctions lines Js.Map.empty = Return functions ->
  Js.Map.get name functions = Some body ->
  exists i line k,
    lines !! i = Some line
    /\ Shared.declaresStub line = true
    /\ name = Shared.functionNameOf line
    /\ Scan.closesAfter (drop i lines) k
    /\ body = take (k - 2) (drop (S i) lines).
Proof.
  intros Hrun Hget.
  destruct (eachOfSeries_populate_blocks lines lines 0 Js.Map.empty functions
              eq_refl Hrun name body Hget) as [Hempty|Hblock]; [done|done].
Qed.

Lemma populateVisitorFunctions_stubs_are_blocks_witness :
  exists i line k,
    ["// header"; "G.visitA = function(ctx) {"; "  return 1;"; "};"] !! i
    = Some line
    /\ Shared.declaresStub line = true
    /\ "G.visitA" = Shared.functionNameOf line
    /\ Scan.closesAfter
         (drop i ["// header"; "G.visitA = function(ctx) {"; "  return 1;"; "};"])
         k
    /\ ["  return 1;"]
       = take (k - 2)
           (drop (S i)
              ["// header"; "G.visitA = function(ctx) {"; "  return 1;"; "};"]).
Proof.
  refine (populateVisitorFunctions_stubs_are_blocks
    ["// header"; "G.visitA = function(ctx) {"; "  return 1;"; "};"]
    [("G.visitA", ["  return 1;"])] "G.visitA" ["  return 1;"] _ _).
  - vm_compute. reflexivity.
  - reflexivity.
Defined.
